(** * Coding-challenge solutions: sum-to-n, currency utilities, price cache
      and the swap session hook

    A shallow embedding of the JavaScript sources

    - problem 1: [sum_to_n_a], [sum_to_n_b], [sum_to_n_c];
    - problem 2, [utils/currency.js]: [calculateExchangeRate],
      [calculateOutputAmount], [isValidAmount], [getTokenIconUrl],
      [processTokenData], [validateSwapData], [debounce];
    - problem 2, [services/priceService.js]: [fetchPrices], [getTokens];
    - problem 2, [hooks/useSwap.js]: the [useSwap] hook as a transition
      system over rendered states.

    JavaScript numbers are IEEE 754 binary64 values; they are modelled by the
    primitive floats of Rocq, which are binary64 with round-to-nearest-even.
    JavaScript strings are modelled by [string]; only ASCII text is
    considered. *)

From Stdlib Require Import ZArith Lia Bool List String Ascii.
From Stdlib Require Import PrimFloat FloatOps SpecFloat FloatAxioms Uint63.
From Stdlib Require Import DecimalString.
From stdpp Require Import base option list strings gmap relations.

Local Open Scope Z_scope.

(* ===================================================================== *)
(** * Part I: definitions *)
(* ===================================================================== *)

(** ** JavaScript numbers and strings *)

Module Js.

(** [ToBoolean] on a Number: [false] for [+0], [-0] and [NaN]. *)
Definition num_truthy (x : float) : bool :=
  negb (PrimFloat.eqb x PrimFloat.zero || PrimFloat.is_nan x).

(** A property that may be absent from an object reads as [undefined],
    modelled by [None]; [undefined] is falsy. *)
Definition prop_truthy (x : option float) : bool :=
  match x with
  | Some v => num_truthy v
  | None => false
  end.

(** [ToBoolean] on a String: [false] exactly for the empty string. *)
Definition str_truthy (s : string) : bool :=
  match s with
  | EmptyString => false
  | String _ _ => true
  end.

(** [Object.is] on Numbers: [NaN] is itself, [+0] and [-0] differ. *)
Definition same_value (x y : float) : bool := PrimFloat.Leibniz.eqb x y.

(** *** Exact rationals to binary64 *)

(** [a / b / 2^e] as a fraction. *)
Definition scale2 (a b e : Z) : Z * Z :=
  if 0 <=? e then (a, b * 2 ^ e) else (a * 2 ^ (- e), b).

(** [a / b / 10^e] as a fraction. *)
Definition scale10 (a b e : Z) : Z * Z :=
  if 0 <=? e then (a, b * 10 ^ e) else (a * 10 ^ (- e), b).

(** Nearest integer to [a / b], ties to even. *)
Definition round_half_even (a b : Z) : Z :=
  let q := a / b in
  let r := a mod b in
  match 2 * r ?= b with
  | Lt => q
  | Gt => q + 1
  | Eq => if Z.even q then q else q + 1
  end.

(** The Number value of the non-negative rational [a / b] ([0 <= a],
    [0 < b]): the binary64 value nearest to it, ties to even, [+Infinity]
    from [2^1024] on. *)
Definition number_of_ratio (a b : Z) : float :=
  if a =? 0 then PrimFloat.zero
  else
    let e0 := Z.log2 a - Z.log2 b in
    let '(a1, b1) := scale2 a b e0 in
    let e := if a1 <? b1 then e0 - 1 else e0 in
    let p := Z.max (e - 52) (-1074) in
    let '(a2, b2) := scale2 a b p in
    let q := round_half_even a2 b2 in
    if 1024 <=? Z.log2 q + p then PrimFloat.infinity
    else Z.ldexp (PrimFloat.of_uint63 (Uint63.of_Z q)) p.

(** The exact value of a finite non-zero Number, sign dropped, as a
    fraction. *)
Definition ratio_of_number (x : float) : option (Z * Z) :=
  match Prim2SF x with
  | S754_finite _ m e =>
      Some (if 0 <=? e then (Z.pos m * 2 ^ e, 1) else (Z.pos m, 2 ^ (- e)))
  | _ => None
  end.

(** The Number with the integer value [z]; the conversion is exact when
    [z] is below [2^53] in magnitude. *)
Definition of_int (z : Z) : float :=
  if z <? 0 then PrimFloat.opp (PrimFloat.of_uint63 (Uint63.of_Z (- z)))
  else PrimFloat.of_uint63 (Uint63.of_Z z).

(** The integer value of a Number, for a Number that is an integer. *)
Definition to_int (x : float) : option Z :=
  match Prim2SF x with
  | S754_zero _ => Some 0
  | S754_finite s m e =>
      if 0 <=? e then Some (cond_Zopp s (Z.pos m * 2 ^ e))
      else if Z.pos m mod 2 ^ (- e) =? 0
           then Some (cond_Zopp s (Z.pos m / 2 ^ (- e)))
           else None
  | _ => None
  end.

(** *** Characters *)

Definition code (c : ascii) : Z := Z.of_nat (nat_of_ascii c).

(** White space and line terminators of the ASCII range. *)
Definition is_white (c : ascii) : bool :=
  let n := code c in
  (n =? 9) || (n =? 10) || (n =? 11) || (n =? 12) || (n =? 13) || (n =? 32).

(** [\d] *)
Definition is_digit (c : ascii) : bool :=
  let n := code c in (48 <=? n) && (n <=? 57).

Definition digit_value (c : ascii) : Z := code c - 48.

Fixpoint trim_start (s : string) : string :=
  match s with
  | String c r => if is_white c then trim_start r else s
  | EmptyString => EmptyString
  end.

Fixpoint rev_string (s acc : string) : string :=
  match s with
  | String c r => rev_string r (String c acc)
  | EmptyString => acc
  end.

Definition trim_end (s : string) : string :=
  rev_string (trim_start (rev_string s EmptyString)) EmptyString.

(** [String.prototype.trim] *)
Definition trim (s : string) : string := trim_end (trim_start s).

(** The longest run of decimal digits at the head of [s], as the number it
    denotes and its length, and the rest of [s]. *)
Fixpoint take_digits (s : string) (acc len : Z) : Z * Z * string :=
  match s with
  | String c r =>
      if is_digit c then take_digits r (acc * 10 + digit_value c) (len + 1)
      else (acc, len, s)
  | EmptyString => (acc, len, s)
  end.

Fixpoint strip_prefix (p s : string) : option string :=
  match p, s with
  | EmptyString, _ => Some s
  | String a p', String b s' =>
      if Ascii.eqb a b then strip_prefix p' s' else None
  | String _ _, EmptyString => None
  end.

(** *** [parseFloat] *)

(** An optional [ExponentPart]: [e] or [E], an optional sign and at least
    one digit; anything else is not part of the literal and counts as no
    exponent. *)
Definition exponent_part (s : string) : Z :=
  match s with
  | String c r =>
      if Ascii.eqb c "e" || Ascii.eqb c "E" then
        match r with
        | String sg r' =>
            if Ascii.eqb sg "-" then
              let '(v, n, _) := take_digits r' 0 0 in
              if 0 <? n then - v else 0
            else if Ascii.eqb sg "+" then
              let '(v, n, _) := take_digits r' 0 0 in
              if 0 <? n then v else 0
            else
              let '(v, n, _) := take_digits r 0 0 in
              if 0 <? n then v else 0
        | EmptyString => 0
        end
      else 0
  | EmptyString => 0
  end.

(** The value of the longest prefix of [s] that is a
    [StrUnsignedDecimalLiteral]; [NaN] when there is none. *)
Definition unsigned_literal (s : string) : float :=
  match strip_prefix "Infinity" s with
  | Some _ => PrimFloat.infinity
  | None =>
      let '(ip, ilen, r1) := take_digits s 0 0 in
      let '(m, flen, r2) :=
        match r1 with
        | String c r =>
            if Ascii.eqb c "." then
              let '(m, tlen, r2) := take_digits r ip ilen in
              (m, tlen - ilen, r2)
            else (ip, 0, r1)
        | EmptyString => (ip, 0, r1)
        end in
      if ilen + flen =? 0 then PrimFloat.nan
      else
        let '(a, b) := scale10 m 1 (flen - exponent_part r2) in
        number_of_ratio a b
  end.

(** [parseFloat(s)]: leading white space is dropped, then the longest
    prefix that is a [StrDecimalLiteral] is converted. *)
Definition parseFloat (s : string) : float :=
  match trim_start s with
  | String c r =>
      if Ascii.eqb c "-" then PrimFloat.opp (unsigned_literal r)
      else if Ascii.eqb c "+" then unsigned_literal r
      else unsigned_literal (String c r)
  | EmptyString => PrimFloat.nan
  end.

(** *** [Number.prototype.toString] (radix 10) *)

(** Number of decimal digits of [z >= 1]. *)
Fixpoint dec_digits (fuel : nat) (z : Z) : Z :=
  match fuel with
  | O => 0
  | S f => if z <? 10 then 1 else 1 + dec_digits f (z / 10)
  end.

(** Number of zeros between the decimal point and the first non-zero digit
    of [a / b < 1]. *)
Fixpoint lead_zeros (fuel : nat) (a b : Z) : Z :=
  match fuel with
  | O => 0
  | S f => if b <=? a * 10 then 0 else 1 + lead_zeros f (a * 10) b
  end.

(** The [n] with [10^(n-1) <= a / b < 10^n]. *)
Definition dec_exponent (a b : Z) : Z :=
  if b <=? a then dec_digits 400 (a / b) else - lead_zeros 400 a b.

(** For a number of digits [k]: the [(s, k', n)] with [k'] digits in [s]
    such that [s * 10^(n - k')] is the Number [x = a / b], the one closest
    to [x] when two exist, the even one on a tie. *)
Definition candidate (x : float) (a b n0 k : Z) : option (Z * Z * Z) :=
  let '(ga, gb) := scale10 a b (n0 - k) in
  let lo := ga / gb in
  let hi := lo + 1 in
  let is_x (s : Z) :=
    let '(va, vb) := scale10 s 1 (k - n0) in
    same_value (number_of_ratio va vb) x in
  let norm (s : Z) := if s =? 10 ^ k then (1, 1, n0 + 1) else (s, k, n0) in
  match is_x lo, is_x hi with
  | true, false => Some (norm lo)
  | false, true => Some (norm hi)
  | false, false => None
  | true, true =>
      match ga - lo * gb ?= hi * gb - ga with
      | Lt => Some (norm lo)
      | Gt => Some (norm hi)
      | Eq => Some (norm (if Z.even lo then lo else hi))
      end
  end.

(** The least [k] that has a candidate, looking at [k, k+1, ...]. *)
Fixpoint shortest (fuel : nat) (x : float) (a b n0 k : Z)
  : option (Z * Z * Z) :=
  match fuel with
  | O => None
  | S f =>
      match candidate x a b n0 k with
      | Some r => Some r
      | None => shortest f x a b n0 (k + 1)
      end
  end.

Definition digits (z : Z) : string :=
  NilZero.string_of_uint (N.to_uint (Z.to_N z)).

Fixpoint zeros (n : nat) : string :=
  match n with
  | O => EmptyString
  | S m => String "0" (zeros m)
  end.

Definition str_take (n : Z) (s : string) : string :=
  String.substring 0 (Z.to_nat n) s.

Definition str_drop (n : Z) (s : string) : string :=
  String.substring (Z.to_nat n) (String.length s - Z.to_nat n) s.

(** The text of a positive finite Number from its digits [s] ([k] of
    them) and its decimal exponent [n]. *)
Definition layout (s k n : Z) : string :=
  let d := digits s in
  if (k <=? n) && (n <=? 21) then
    String.append d (zeros (Z.to_nat (n - k)))
  else if (0 <? n) && (n <=? 21) then
    String.append (str_take n d) (String.append "." (str_drop n d))
  else if (-6 <? n) && (n <=? 0) then
    String.append "0." (String.append (zeros (Z.to_nat (- n))) d)
  else
    let e := n - 1 in
    let sign := if e <? 0 then "-" else "+" in
    let mant :=
      if k =? 1 then d
      else String.append (str_take 1 d) (String.append "." (str_drop 1 d)) in
    String.append mant
      (String.append "e" (String.append sign (digits (Z.abs e)))).

Definition positive_to_string (x : float) : string :=
  if PrimFloat.eqb x PrimFloat.infinity then "Infinity"
  else
    match ratio_of_number x with
    | Some (a, b) =>
        match shortest 17 x a b (dec_exponent a b) 1 with
        | Some (s, k, n) => layout s k n
        | None => "NaN"
        end
    | None => "NaN"
    end.

(** [x.toString()] for a Number [x]. *)
Definition number_to_string (x : float) : string :=
  if PrimFloat.is_nan x then "NaN"
  else if PrimFloat.eqb x PrimFloat.zero then "0"
  else if PrimFloat.ltb x PrimFloat.zero then
    String.append "-" (positive_to_string (PrimFloat.opp x))
  else positive_to_string x.

(** *** The regular expression [/^\d*\.?\d*$/] *)

Fixpoint skip_digits (s : string) : string :=
  match s with
  | String c r => if is_digit c then skip_digits r else s
  | EmptyString => EmptyString
  end.

(** [/^\d*\.?\d*$/.test(s)]: digits, at most one dot, digits, and nothing
    else up to the end of the input. *)
Definition amount_pattern (s : string) : bool :=
  match skip_digits s with
  | EmptyString => true
  | String c r =>
      if Ascii.eqb c "." then
        match skip_digits r with
        | EmptyString => true
        | String _ _ => false
        end
      else false
  end.

End Js.

(** ** Problem 1: three ways to sum to n

    The arguments and results are Numbers, that is binary64 values, and
    every operation rounds as JavaScript does. The loop of [sum_to_n_b]
    need not end (for [n = Infinity] it does not), and the recursion of
    [sum_to_n_c] needs one frame of the call stack for each call; both are
    bounded here by an argument of the function. *)

(** The sum of the integers [1..k], by its definition. *)
Fixpoint sum_1_to (k : nat) : Z :=
  match k with
  | O => 0
  | S j => sum_1_to j + Z.of_nat (S j)
  end.

(** [const sum_to_n_a = (n) => (n * (n + 1)) / 2] *)
Definition sum_to_n_a (n : float) : float := ((n * (n + 1)) / 2)%float.

(** The loop of [sum_to_n_b]: [for (let i = 1; i <= n; i++) sum += i], from
    the state [(i, sum)]. At most [fuel] tests of [i <= n] are made; [None]
    says that the loop is still running after them. *)
Fixpoint sum_loop (fuel : nat) (n i sum : float) : option float :=
  match fuel with
  | O => None
  | S fuel' =>
      if (i <=? n)%float then sum_loop fuel' n (i + 1)%float (sum + i)%float
      else Some sum
  end.

(** [sum_to_n_b]: [let sum = 0; for (...) ...; return sum]. *)
Definition sum_to_n_b (fuel : nat) (n : float) : option float :=
  sum_loop fuel n 1%float 0%float.

(** [sum_to_n_c]: [if (n <= 1) return n; return n + sum_to_n_c(n - 1)].
    The call stack has room for [stack] nested calls; [None] is the
    [RangeError] that a call beyond them throws, which the callers do not
    catch. *)
Fixpoint sum_to_n_c (stack : nat) (n : float) : option float :=
  match stack with
  | O => None
  | S stack' =>
      if (n <=? 1)%float then Some n
      else
        match sum_to_n_c stack' (n - 1)%float with
        | Some rest => Some (n + rest)%float
        | None => None
        end
  end.

(** ** Problem 2: [utils/currency.js] *)

(** A raw record of the price feed, [{ currency, price, date }]. *)
Module PriceSample.
Record t : Type := mk {
  currency : string;
  price : option float;
  date : string;
}.
End PriceSample.

(** A token, [{ currency, price, lastUpdated, iconUrl }]. A property that an
    object does not have is [None]: the tokens of the test suites only have
    [currency] and [price]. *)
Module Token.
Record t : Type := mk {
  currency : string;
  price : option float;
  lastUpdated : option string;
  iconUrl : option string;
}.
End Token.

(** The tokens of the test suites. *)
Definition ETH : Token.t := Token.mk "ETH" (Some 2000%float) None None.
Definition BTC : Token.t := Token.mk "BTC" (Some 30000%float) None None.
Definition zeroToken : Token.t := Token.mk "ZERO" (Some 0%float) None None.

(** [x === 0] for a property [x]. *)
Definition strict_eq_zero (x : option float) : bool :=
  match x with
  | Some v => PrimFloat.eqb v PrimFloat.zero
  | None => false
  end.

(** [calculateExchangeRate(fromToken, toToken)]; a token argument may be
    [null]. *)
Definition calculateExchangeRate (fromToken toToken : option Token.t) : float :=
  let fromPrice := fromToken ≫= Token.price in
  let toPrice := toToken ≫= Token.price in
  if negb (Js.prop_truthy fromPrice) || negb (Js.prop_truthy toPrice)
     || strict_eq_zero fromPrice
  then PrimFloat.zero
  else
    match fromPrice, toPrice with
    | Some p, Some q => PrimFloat.div p q
    | _, _ => PrimFloat.nan
    end.

(** An amount argument is a string or a number. *)
Inductive amount_arg : Type :=
  | AmountStr (s : string)
  | AmountNum (x : float).

(** [typeof amount === "string" ? parseFloat(amount) : amount] *)
Definition amount_number (a : amount_arg) : float :=
  match a with
  | AmountStr s => Js.parseFloat s
  | AmountNum x => x
  end.

(** [calculateOutputAmount(inputAmount, exchangeRate)] *)
Definition calculateOutputAmount (inputAmount : amount_arg) (exchangeRate : float)
  : float :=
  let amount := amount_number inputAmount in
  if PrimFloat.is_nan amount || PrimFloat.leb amount PrimFloat.zero
     || PrimFloat.leb exchangeRate PrimFloat.zero
  then PrimFloat.zero
  else PrimFloat.mul amount exchangeRate.

(** [isValidAmount(amount)] *)
Definition isValidAmount (amount : string) : bool :=
  if negb (Js.str_truthy amount) || String.eqb (Js.trim amount) "" then false
  else
    let num := Js.parseFloat amount in
    negb (PrimFloat.is_nan num) && PrimFloat.ltb PrimFloat.zero num
    && PrimFloat.is_finite num.

(** [getTokenIconUrl(currency)] *)
Definition getTokenIconUrl (currency : string) : string :=
  if negb (Js.str_truthy currency) then ""
  else
    String.append
      "https://raw.githubusercontent.com/Switcheo/token-icons/main/tokens/"
      (String.append currency ".svg").

(** A JavaScript [Map] with string keys. Its entries are kept in the order
    in which their keys were first set, and [set] on a key that is present
    replaces the value in place. *)
Module JsMap.
Section WithValue.
Context {V : Type}.

Definition t : Type := list (string * V).

Definition empty : t := [].

Fixpoint get (m : t) (k : string) : option V :=
  match m with
  | [] => None
  | (k', v) :: r => if String.eqb k' k then Some v else get r k
  end.

Fixpoint set (m : t) (k : string) (v : V) : t :=
  match m with
  | [] => [(k, v)]
  | (k', v') :: r =>
      if String.eqb k' k then (k', v) :: r else (k', v') :: set r k v
  end.

Definition values (m : t) : list V := snd <$> m.

Definition keys (m : t) : list string := fst <$> m.
End WithValue.
Arguments t : clear implicits.
End JsMap.

Section Currency.

(** The time value of [new Date(s)], in milliseconds since the epoch;
    [None] is the [NaN] of an invalid date. The constructor is the
    runtime's, so its result is a parameter here. *)
Variable Date_parse : string -> option Z.

(** [new Date(a) > new Date(b)]: the time values are compared as numbers,
    and a comparison with [NaN] is false. *)
Definition date_gt (a b : string) : bool :=
  match Date_parse a, Date_parse b with
  | Some x, Some y => y <? x
  | _, _ => false
  end.

(** The body of the [forEach] of [processTokenData]. *)
Definition keep_latest (tokenMap : JsMap.t PriceSample.t) (item : PriceSample.t)
  : JsMap.t PriceSample.t :=
  match JsMap.get tokenMap (PriceSample.currency item) with
  | None => JsMap.set tokenMap (PriceSample.currency item) item
  | Some existing =>
      if date_gt (PriceSample.date item) (PriceSample.date existing)
      then JsMap.set tokenMap (PriceSample.currency item) item
      else tokenMap
  end.

Definition to_token (item : PriceSample.t) : Token.t :=
  {| Token.currency := PriceSample.currency item;
     Token.price := PriceSample.price item;
     Token.lastUpdated := Some (PriceSample.date item);
     Token.iconUrl := Some (getTokenIconUrl (PriceSample.currency item)) |}.

(** [processTokenData(priceData)] *)
Definition processTokenData (priceData : list PriceSample.t) : list Token.t :=
  let tokenMap := fold_left keep_latest priceData JsMap.empty in
  to_token <$> JsMap.values tokenMap.

End Currency.

(** The time values of three dates of the price feed, for the examples. *)
Definition feed_dates (s : string) : option Z :=
  if String.eqb s "2023-08-29T07:10:40.000Z" then Some 1693293040000
  else if String.eqb s "2023-08-29T07:10:45.000Z" then Some 1693293045000
  else if String.eqb s "2023-08-29T07:10:50.000Z" then Some 1693293050000
  else None.

(** A price feed with two samples of one currency. *)
Definition feed : list PriceSample.t :=
  [ PriceSample.mk "ETH" (Some 1645.5%float) "2023-08-29T07:10:40.000Z";
    PriceSample.mk "USDC" (Some 1%float) "2023-08-29T07:10:40.000Z";
    PriceSample.mk "ETH" (Some 1650.5%float) "2023-08-29T07:10:50.000Z" ].

(** The result object of [validateSwapData], [{ isValid, error }]. *)
Module Validation.
Record t : Type := mk {
  isValid : bool;
  error : option string;
}.
End Validation.

(** The result [{ isValid: false, error: message }]. *)
Definition invalid (message : string) : Validation.t :=
  Validation.mk false (Some message).

(** The four messages of [validateSwapData]. *)
Definition validation_messages : list string :=
  [ "Please select a token to swap from";
    "Please select a token to swap to";
    "Cannot swap the same token";
    "Please enter a valid amount" ].

(** [validateSwapData(fromToken, toToken, fromAmount)] *)
Definition validateSwapData (fromToken toToken : option Token.t)
    (fromAmount : string) : Validation.t :=
  match fromToken with
  | None => invalid "Please select a token to swap from"
  | Some f =>
      match toToken with
      | None => invalid "Please select a token to swap to"
      | Some t =>
          if String.eqb (Token.currency f) (Token.currency t) then
            invalid "Cannot swap the same token"
          else if negb (isValidAmount fromAmount) then
            invalid "Please enter a valid amount"
          else Validation.mk true None
      end
  end.

(** *** Timers and [debounce]

    The runtime keeps the timers that were set and not yet cleared or fired,
    in the order in which they were set. A timer carries the arguments with
    which its callback will call the wrapped function; running the wrapped
    function is recorded in [executed], with the time at which the timer was
    due. *)
Module Timers.
Section WithArgs.
Context {A : Type}.

Record timer : Type := mkTimer {
  id : nat;
  due : Z;
  args : A;
}.

Record runtime : Type := mkRuntime {
  now : Z;
  next_id : nat;
  pending : list timer;
  executed : list (Z * A);
}.

(** [clearTimeout(tid)]; [tid] may be [undefined], and an id that is not
    pending is ignored. *)
Definition clearTimeout (rt : runtime) (tid : option nat) : runtime :=
  match tid with
  | None => rt
  | Some i =>
      mkRuntime (now rt) (next_id rt)
        (List.filter (fun tm => negb (Nat.eqb (id tm) i)) (pending rt))
        (executed rt)
  end.

(** [setTimeout(() => func(...args), delay)] *)
Definition setTimeout (rt : runtime) (a : A) (delay : Z) : nat * runtime :=
  (next_id rt,
   mkRuntime (now rt) (S (next_id rt))
     (pending rt ++ [mkTimer (next_id rt) (now rt + delay) a])
     (executed rt)).



(** The closure that [debounce(func, delay)] returns: its [delay] and
    its variable [timeoutId]. *)
Record debounced : Type := mkDebounced {
  delay : Z;
  timeoutId : option nat;
}.


(** A call [(...args) => { clearTimeout(timeoutId); timeoutId =
    setTimeout(() => func(...args), delay); }] of the closure. *)
Definition call (d : debounced) (rt : runtime) (a : A) : debounced * runtime :=
  let rt1 := clearTimeout rt (timeoutId d) in
  let '(tid, rt2) := setTimeout rt1 a (delay d) in
  (mkDebounced (delay d) (Some tid), rt2).

(** A timer that was due before [t]. *)
Definition is_overdue (t : Z) (tm : timer) : bool := due tm <? t.

(** Time passes up to a call made at [t], in a task of its own: the timers
    that were due before [t] have fired, in the order in which they were
    set. A timer that is due at [t] itself has not run when the call is
    made, so that the call can still clear it. *)
Definition arrive (rt : runtime) (t : Z) : runtime :=
  mkRuntime (Z.max (now rt) t) (next_id rt)
    (List.filter (fun tm => negb (is_overdue t tm)) (pending rt))
    (executed rt
       ++ List.map (fun tm => (due tm, args tm))
            (List.filter (is_overdue t) (pending rt))).

(** A sequence of calls, each at its time: time passes up to the call,
    then the call is made. *)
Fixpoint run (d : debounced) (rt : runtime) (calls : list (Z * A))
  : debounced * runtime :=
  match calls with
  | [] => (d, rt)
  | (t, a) :: rest =>
      let '(d', rt') := call d (arrive rt t) a in
      run d' rt' rest
  end.






End WithArgs.
Arguments timer : clear implicits.
Arguments runtime : clear implicits.
End Timers.

(** ** Problem 2: [services/priceService.js] *)

Module PriceService.

(** What a computation returns to its caller: a value, or a thrown
    [Error] with its message. *)
Inductive outcome (T : Type) : Type :=
  | Returned (v : T)
  | Thrown (message : string).
Arguments Returned {T} v.
Arguments Thrown {T} message.

(** What the network does with the request of [fetch]: the request fails,
    or a response arrives with its [ok] flag, its status and its body,
    which is [None] when it is not JSON. *)
Inductive Network : Type :=
  | NetworkFailure (message : string)
  | HttpResponse (ok : bool) (status : string)
      (json : option (list PriceSample.t)).

(** A cache entry, [{ data, timestamp }]. *)
Record CacheEntry : Type := mkEntry {
  data : list Token.t;
  timestamp : Z;
}.

(** The service, [this.cache] and [this.CACHE_DURATION], and the number of
    requests sent to the price feed so far. *)
Record t : Type := mk {
  cache : gmap string CacheEntry;
  CACHE_DURATION : Z;
  requests : nat;
}.

(** [new PriceService()] *)
Definition new : t := mk ∅ 30000 0.

(** The [try] block of [fetchPrices]. *)
Definition fetch_body (net : Network) : outcome (list PriceSample.t) :=
  match net with
  | NetworkFailure m => Thrown m
  | HttpResponse ok status json =>
      if negb ok then Thrown (String.append "HTTP error! status: " status)
      else
        match json with
        | Some d => Returned d
        | None => Thrown "Unexpected token in JSON"
        end
  end.

(** [fetchPrices()]: one request; whatever is thrown is replaced by one
    error. *)
Definition fetchPrices (s : t) (net : Network)
  : outcome (list PriceSample.t) * t :=
  let s' := mk (cache s) (CACHE_DURATION s) (S (requests s)) in
  match fetch_body net with
  | Returned d => (Returned d, s')
  | Thrown _ => (Thrown "Failed to fetch price data. Please try again.", s')
  end.

Section GetTokens.
Variable Date_parse : string -> option Z.

(** The [try ... catch] of [getTokens]: fetch, process and store; when
    that throws, the cached data if there is an entry, whatever its age,
    and the error otherwise. *)
Definition refresh (s : t) (cached : option CacheEntry) (net : Network)
    (now' : Z) : outcome (list Token.t) * t :=
  match fetchPrices s net with
  | (Returned priceData, s1) =>
      let tokens := processTokenData Date_parse priceData in
      (Returned tokens,
       mk (<["tokens" := mkEntry tokens now']> (cache s1))
          (CACHE_DURATION s1) (requests s1))
  | (Thrown e, s1) =>
      match cached with
      | Some c => (Returned (data c), s1)
      | None => (Thrown e, s1)
      end
  end.

(** [getTokens()]. [now] is the [Date.now()] of the validity check,
    [net] the behaviour of the network should a request be sent, and
    [now'] the [Date.now()] at which the cache is updated. *)
Definition getTokens (s : t) (now : Z) (net : Network) (now' : Z)
  : outcome (list Token.t) * t :=
  let cached := cache s !! "tokens" in
  match cached with
  | Some c =>
      if now - timestamp c <? CACHE_DURATION s then (Returned (data c), s)
      else refresh s cached net now'
  | None => refresh s cached net now'
  end.
End GetTokens.

(** [tokens.find((token) => token.currency === currency) || null] *)
Definition find_token (tokens : list Token.t) (currency : string)
  : option Token.t :=
  List.find (fun token => String.eqb (Token.currency token) currency) tokens.

Section GetToken.
Variable Date_parse : string -> option Z.

(** [getToken(currency)] *)
Definition getToken (s : t) (now : Z) (net : Network) (now' : Z)
    (currency : string) : outcome (option Token.t) * t :=
  match getTokens Date_parse s now net now' with
  | (Returned tokens, s') => (Returned (find_token tokens currency), s')
  | (Thrown e, s') => (Thrown e, s')
  end.
End GetToken.

(** [clearCache()] *)
Definition clearCache (s : t) : t := mk ∅ (CACHE_DURATION s) (requests s).

(** [isCacheValid()], with [now] the value of [Date.now()]. *)
Definition isCacheValid (s : t) (now : Z) : bool :=
  match cache s !! "tokens" with
  | Some c => now - timestamp c <? CACHE_DURATION s
  | None => false
  end.

(** A service whose entry was stored at time [1000]. *)
Definition cached_service : t :=
  mk (<["tokens" := mkEntry [ETH; BTC] 1000]> ∅) 30000 0.

End PriceService.

(** ** Problem 2: [hooks/useSwap.js]

    The hook is modelled by its rendered states and the events that change
    them: a call of one of its actions, the debounce timer firing, and the
    delay of [executeSwap] elapsing. Each event runs on a rendered state, so
    the values an action closes over ([exchangeRate], [validation],
    [formData]) are those of the state it is called on. After the state
    updates of an event, [render] runs the two effects of the hook. *)
Module UseSwap.

Record FormData : Type := mkForm {
  fromToken : option Token.t;
  toToken : option Token.t;
  fromAmount : string;
  toAmount : string;
}.

(** The initial [formData], which is also what [resetForm] sets. *)
Definition emptyForm : FormData := mkForm None None "" "".

(** The notifications: [toast(...)] of [swapTokens], [toast.error(msg)],
    and [toast.success] of a swap, kept with the arguments of its two
    [formatCryptoAmount] calls. *)
Inductive Toast : Type :=
  | TokensSwapped
  | ErrorToast (message : string)
  | SuccessToast (fromAmount fromCurrency toAmount toCurrency : string).

Record State : Type := mkState {
  formData : FormData;
  isLoading : bool;
  error : option string;
  (** the arguments of the pending call that [debouncedCalculateToAmount]
      has scheduled, if any: a new call replaces the pending one *)
  scheduled : option (string * option float);
  (** the [executeSwap] calls that wait for their delay, each with the
      [formData] it closed over *)
  executing : list FormData;
  (** the notifications so far *)
  toasts : list Toast;
}.

Definition initial : State := mkState emptyForm false None None [] [].

Definition with_form (h : State) (fd : FormData) : State :=
  mkState fd (isLoading h) (error h) (scheduled h) (executing h) (toasts h).

(** The [exchangeRate] memo; [None] is [null]. *)
Definition exchangeRate (fd : FormData) : option float :=
  match fromToken fd, toToken fd with
  | Some _, Some _ => Some (calculateExchangeRate (fromToken fd) (toToken fd))
  | _, _ => None
  end.

(** The [validation] memo. *)
Definition validation (fd : FormData) : Validation.t :=
  validateSwapData (fromToken fd) (toToken fd) (fromAmount fd).

(** [Object.is] on two values of [exchangeRate]. *)
Definition same_rate (a b : option float) : bool :=
  match a, b with
  | Some x, Some y => Js.same_value x y
  | None, None => true
  | _, _ => false
  end.

(** [rate && amount] *)
Definition rate_and_amount (rate : option float) (amount : string) : bool :=
  Js.prop_truthy rate && Js.str_truthy amount.

(** [if (error) setError(null)] *)
Definition clear_error (e : option string) : option string :=
  match e with
  | Some m => if Js.str_truthy m then None else Some m
  | None => None
  end.

(** The render that follows the state updates of an event: [prev] is the
    state before the event, [next] the state after its updates, [replaced]
    tells whether [setFormData] was called, which makes [formData] a new
    object.

    The first effect depends on [formData.fromAmount] and [exchangeRate]:
    when one of them changed it calls [debouncedCalculateToAmount], or
    clears [toAmount]. The second depends on [formData] and clears the
    error. *)
Definition render (prev next : State) (replaced : bool) : State :=
  let rate := exchangeRate (formData next) in
  let amount := fromAmount (formData next) in
  let deps_changed :=
    negb (String.eqb (fromAmount (formData prev)) amount)
    || negb (same_rate (exchangeRate (formData prev)) rate) in
  let '(h1, replaced1) :=
    if deps_changed then
      if rate_and_amount rate amount then
        (mkState (formData next) (isLoading next) (error next)
           (Some (amount, rate)) (executing next) (toasts next), replaced)
      else
        (with_form next
           (mkForm (fromToken (formData next)) (toToken (formData next))
              amount ""), true)
    else (next, replaced) in
  if replaced1 then
    mkState (formData h1) (isLoading h1) (clear_error (error h1))
      (scheduled h1) (executing h1) (toasts h1)
  else h1.

(** [setFromToken(token)] *)
Definition setFromToken (h : State) (token : option Token.t) : State :=
  let fd := formData h in
  render h (with_form h (mkForm token (toToken fd) (fromAmount fd) (toAmount fd)))
    true.

(** [setToToken(token)] *)
Definition setToToken (h : State) (token : option Token.t) : State :=
  let fd := formData h in
  render h
    (with_form h (mkForm (fromToken fd) token (fromAmount fd) (toAmount fd)))
    true.

(** [amount === "" || /^\d*\.?\d*$/.test(amount)] *)
Definition accepted (amount : string) : bool :=
  String.eqb amount "" || Js.amount_pattern amount.

(** [setFromAmount(amount)] *)
Definition setFromAmount (h : State) (amount : string) : State :=
  if accepted amount then
    let fd := formData h in
    render h
      (with_form h (mkForm (fromToken fd) (toToken fd) amount (toAmount fd)))
      true
  else h.

(** The [fromAmount] that [setToAmount] computes back from [amount]. *)
Definition reverseAmount (rate : float) (amount : string) : string :=
  Js.number_to_string
    (calculateOutputAmount (AmountStr amount)
       (PrimFloat.div PrimFloat.one rate)).

(** [setToAmount(amount)] *)
Definition setToAmount (h : State) (amount : string) : State :=
  if accepted amount then
    let fd := formData h in
    let fd1 := mkForm (fromToken fd) (toToken fd) (fromAmount fd) amount in
    let fd2 :=
      match exchangeRate fd with
      | Some rate =>
          if rate_and_amount (Some rate) amount then
            mkForm (fromToken fd1) (toToken fd1) (reverseAmount rate amount)
              (toAmount fd1)
          else fd1
      | None => fd1
      end in
    render h (with_form h fd2) true
  else h.

(** [swapTokens()] *)
Definition swapTokens (h : State) : State :=
  let fd := formData h in
  render h
    (mkState (mkForm (toToken fd) (fromToken fd) (toAmount fd) (fromAmount fd))
       (isLoading h) (error h) (scheduled h) (executing h)
       (toasts h ++ [TokensSwapped]))
    true.

(** [resetForm()] *)
Definition resetForm (h : State) : State :=
  render h
    (mkState emptyForm (isLoading h) None (scheduled h) (executing h)
       (toasts h))
    true.

(** [validation.error || "Invalid swap data"] *)
Definition error_message (v : Validation.t) : string :=
  match Validation.error v with
  | Some m => if Js.str_truthy m then m else "Invalid swap data"
  | None => "Invalid swap data"
  end.

(** [executeSwap()] up to its [await]: the rejection, or the start of the
    simulated commit. *)
Definition executeSwap (h : State) : State :=
  let v := validation (formData h) in
  if negb (Validation.isValid v) then
    render h
      (mkState (formData h) (isLoading h) (Some (error_message v))
         (scheduled h) (executing h)
         (toasts h ++ [ErrorToast (error_message v)]))
      false
  else
    render h
      (mkState (formData h) true None (scheduled h)
         (executing h ++ [formData h]) (toasts h))
      false.

(** [token?.currency || ""] *)
Definition currency_or_empty (tok : option Token.t) : string :=
  match tok with
  | Some t => Token.currency t
  | None => ""
  end.

(** [executeSwap()] after its [await]: the delay of the oldest waiting
    call has elapsed; the success notification, [resetForm()], and in the
    [finally] block [setIsLoading(false)]. Nothing in the [try] block
    throws. *)
Definition swapDelayElapsed (h : State) : State :=
  match executing h with
  | [] => h
  | fd :: rest =>
      render h
        (mkState emptyForm false None (scheduled h) rest
           (toasts h
              ++ [SuccessToast (fromAmount fd) (currency_or_empty (fromToken fd))
                    (toAmount fd) (currency_or_empty (toToken fd))]))
        true
  end.

(** The function that [debouncedCalculateToAmount] wraps. *)
Definition calculateToAmount (fd : FormData) (amount : string)
    (rate : option float) : FormData :=
  match rate with
  | Some r =>
      if rate_and_amount rate amount then
        mkForm (fromToken fd) (toToken fd) (fromAmount fd)
          (Js.number_to_string (calculateOutputAmount (AmountStr amount) r))
      else mkForm (fromToken fd) (toToken fd) (fromAmount fd) ""
  | None => mkForm (fromToken fd) (toToken fd) (fromAmount fd) ""
  end.

(** The debounce timer fires. *)
Definition debounceElapsed (h : State) : State :=
  match scheduled h with
  | None => h
  | Some (amount, rate) =>
      render h
        (mkState (calculateToAmount (formData h) amount rate) (isLoading h)
           (error h) None (executing h) (toasts h))
        true
  end.

Inductive Event : Type :=
  | SetFromToken (token : option Token.t)
  | SetToToken (token : option Token.t)
  | SetFromAmount (amount : string)
  | SetToAmount (amount : string)
  | SwapTokens
  | ResetForm
  | ExecuteSwap
  | DebounceElapsed
  | SwapDelayElapsed.

Definition step (h : State) (e : Event) : State :=
  match e with
  | SetFromToken token => setFromToken h token
  | SetToToken token => setToToken h token
  | SetFromAmount amount => setFromAmount h amount
  | SetToAmount amount => setToAmount h amount
  | SwapTokens => swapTokens h
  | ResetForm => resetForm h
  | ExecuteSwap => executeSwap h
  | DebounceElapsed => debounceElapsed h
  | SwapDelayElapsed => swapDelayElapsed h
  end.

(** The state after a sequence of events. *)
Definition run (h : State) (events : list Event) : State :=
  fold_left step events h.

(** Both amounts match [/^\d*\.?\d*$/]. *)
Definition amounts_ok (fd : FormData) : bool :=
  Js.amount_pattern (fromAmount fd) && Js.amount_pattern (toAmount fd).

(** The text of the number that event [e] writes into an amount field of
    [h], if it writes one: the [reverseAmount.toString()] of [setToAmount]
    and the [outputAmount.toString()] of the debounced function. *)
Definition number_written (h : State) (e : Event) : option string :=
  match e with
  | SetToAmount amount =>
      match exchangeRate (formData h) with
      | Some rate =>
          if accepted amount && rate_and_amount (Some rate) amount
          then Some (reverseAmount rate amount)
          else None
      | None => None
      end
  | DebounceElapsed =>
      match scheduled h with
      | Some (amount, Some r) =>
          if rate_and_amount (Some r) amount
          then Some (Js.number_to_string
                       (calculateOutputAmount (AmountStr amount) r))
          else None
      | _ => None
      end
  | _ => None
  end.

(** The events that write the text of a number into an amount field. *)
Definition writes_number (e : Event) : bool :=
  match e with
  | SetToAmount _ | DebounceElapsed => true
  | _ => false
  end.

(** Along the events from [h], every number written into an amount field
    has a text that matches the pattern. *)
Fixpoint plain_numbers (h : State) (events : list Event) : Prop :=
  match events with
  | [] => True
  | e :: rest =>
      (forall s, number_written h e = Some s -> Js.amount_pattern s = true)
      /\ plain_numbers (step h e) rest
  end.

(** The events that call [setFormData] on [h]. *)
Definition replaces_form (h : State) (e : Event) : bool :=
  match e with
  | SetFromToken _ | SetToToken _ | SwapTokens | ResetForm => true
  | SetFromAmount amount | SetToAmount amount => accepted amount
  | ExecuteSwap => false
  | DebounceElapsed =>
      match scheduled h with
      | Some _ => true
      | None => false
      end
  | SwapDelayElapsed =>
      match executing h with
      | [] => false
      | _ :: _ => true
      end
  end.

End UseSwap.

(** ** Problem 2: [hooks/useTokens.js]

    The state of the hook and the two halves of [fetchTokens], before and
    after its [await] of [currencyService.getTokens()]. *)
Module UseTokens.

Record State : Type := mkState {
  tokens : list Token.t;
  isLoading : bool;
  error : option string;
}.

(** The state of the first render. *)
Definition initial : State := mkState [] true None.

(** [fetchTokens()] up to its [await]: [setIsLoading(true)] and
    [setError(null)]. *)
Definition fetchStarted (h : State) : State := mkState (tokens h) true None.

(** [fetchTokens()] after its [await]: [setTokens(tokenData)], or in the
    [catch] block [setError(err.message)], what is thrown being an [Error];
    then [setIsLoading(false)] in the [finally] block. *)
Definition fetchSettled (h : State)
    (r : PriceService.outcome (list Token.t)) : State :=
  match r with
  | PriceService.Returned tokenData => mkState tokenData false (error h)
  | PriceService.Thrown message => mkState (tokens h) false (Some message)
  end.

Section FetchTokens.
Variable Date_parse : string -> option Z.

(** One [fetchTokens()] against the price service. *)
Definition fetchTokens (h : State) (s : PriceService.t) (now : Z)
    (net : PriceService.Network) (now' : Z) : State * PriceService.t :=
  let '(r, s') := PriceService.getTokens Date_parse s now net now' in
  (fetchSettled (fetchStarted h) r, s').
End FetchTokens.

(** [getTokenBySymbol(symbol)]; [None] is [undefined]. *)
Definition getTokenBySymbol (h : State) (symbol : string) : option Token.t :=
  List.find (fun token => String.eqb (Token.currency token) symbol) (tokens h).

End UseTokens.

(** ** Notions used in the properties *)

(** The elements of [l] that are not in [seen], each once, in the order in
    which they first occur. *)
Fixpoint first_occurrences (seen l : list string) : list string :=
  match l with
  | [] => []
  | c :: rest =>
      if bool_decide (c ∈ seen) then first_occurrences seen rest
      else c :: first_occurrences (c :: seen) rest
  end.

Section Latest.
Variable Date_parse : string -> option Z.

(** The time value of the date of a sample, if the date is valid. *)
Definition time_of (item : PriceSample.t) : option Z :=
  Date_parse (PriceSample.date item).

(** [item] is one of [samples], its date is valid, and no sample of its
    currency with a valid date has a greater time value. *)
Definition latest_valid (samples : list PriceSample.t) (item : PriceSample.t)
  : Prop :=
  item ∈ samples
  /\ exists t,
      time_of item = Some t
      /\ forall other t',
          other ∈ samples ->
          PriceSample.currency other = PriceSample.currency item ->
          time_of other = Some t' ->
          t' <= t.

(** [item] is the first sample of its currency in [samples], and its date
    is invalid. *)
Definition invalid_first (samples : list PriceSample.t) (item : PriceSample.t)
  : Prop :=
  time_of item = None
  /\ exists before after,
      samples = before ++ item :: after
      /\ forall other,
          other ∈ before ->
          PriceSample.currency other <> PriceSample.currency item.

(** [item] is at some place in [samples] and its date is valid; the samples
    of its currency before it that have a valid date have a smaller time
    value, and those after it have no greater one. *)
Definition first_latest (samples : list PriceSample.t) (item : PriceSample.t)
  : Prop :=
  exists before after t,
    samples = before ++ item :: after
    /\ time_of item = Some t
    /\ (forall other t',
          other ∈ before ->
          PriceSample.currency other = PriceSample.currency item ->
          time_of other = Some t' ->
          t' < t)
    /\ (forall other t',
          other ∈ after ->
          PriceSample.currency other = PriceSample.currency item ->
          time_of other = Some t' ->
          t' <= t).

(** What [tokenMap] is after the samples [seen]: one entry for each
    currency seen, under its own key. The entry is the first sample of the
    currency when the date of that sample is invalid, and it is the first
    of the latest samples of the currency otherwise. *)
Definition latest_map (tokenMap : JsMap.t PriceSample.t)
    (seen : list PriceSample.t) : Prop :=
  NoDup (JsMap.keys tokenMap)
  /\ (forall k, k ∈ JsMap.keys tokenMap <-> k ∈ PriceSample.currency <$> seen)
  /\ (forall k item,
        JsMap.get tokenMap k = Some item ->
        PriceSample.currency item = k
        /\ (invalid_first seen item \/ first_latest seen item))
  /\ (forall item,
        invalid_first seen item ->
        JsMap.get tokenMap (PriceSample.currency item) = Some item).
End Latest.

(** Two samples of one currency, the first with a date that is no date. *)
Definition undated_first : list PriceSample.t :=
  [ PriceSample.mk "ETH" (Some 1%float) "not a date";
    PriceSample.mk "ETH" (Some 2%float) "2023-08-29T07:10:40.000Z" ].

(** [x] is the binary64 number with the sign [s] and the magnitude [c], an
    integer with [0 < c < 2^53]: a mantissa [q] of 53 binary digits and an
    exponent [e] with [q * 2^e = c]. *)
Definition magnitude (s : bool) (c : Z) (x : spec_float) : Prop :=
  exists (q : positive) (e : Z),
    x = S754_finite s q e
    /\ 2 ^ 52 <= Zpos q < 2 ^ 53 /\ e <= 0 /\ Zpos q = c * 2 ^ (- e).

(** [x] is the binary64 number of the integer [z], which is below [2^53]
    in magnitude; zero is [+0]. *)
Definition represents (z : Z) (x : spec_float) : Prop :=
  if z =? 0 then x = S754_zero false else magnitude (z <? 0) (Z.abs z) x.

(** Some character of [s] is one of the digits [1] to [9]. *)
Fixpoint has_nonzero_digit (s : string) : bool :=
  match s with
  | EmptyString => false
  | String c r =>
      (Js.is_digit c && negb (Js.digit_value c =? 0)) || has_nonzero_digit r
  end.

(** Every character of [s] is a digit or a dot. *)
Fixpoint digits_and_dots (s : string) : bool :=
  match s with
  | EmptyString => true
  | String c r => (Js.is_digit c || Ascii.eqb c ".") && digits_and_dots r
  end.

(** The number of dots of [s]. *)
Fixpoint dots (s : string) : nat :=
  match s with
  | EmptyString => O
  | String c r => (if Ascii.eqb c "." then 1 else 0)%nat + dots r
  end.

(* ===================================================================== *)
(** * Part II: properties *)
(* ===================================================================== *)

(** ** Integers as binary64 numbers

    The arithmetic of binary64 is exact on integers as long as the results
    stay below [2^53] in magnitude. *)

Lemma digits2_pos_size p : digits2_pos p = Pos.size p.
Proof. induction p as [p IH|p IH|]; cbn; congruence. Qed.

Lemma Zdigits2_log2 (p : positive) : Zdigits2 (Zpos p) = Z.log2 (Zpos p) + 1.
Proof.
  cbn [Zdigits2]. rewrite digits2_pos_size.
  destruct p; cbn [Pos.size Z.log2]; lia.
Qed.

(** A number of 53 binary digits has 53 digits. *)
Lemma Zdigits2_53 (q : positive) :
  2 ^ 52 <= Zpos q < 2 ^ 53 -> Zdigits2 (Zpos q) = 53.
Proof.
  intros Hq. rewrite Zdigits2_log2.
  rewrite (Z.log2_unique (Zpos q) 52); [reflexivity | lia | exact Hq].
Qed.

Lemma Zdigits2_shift (q : positive) (n : Z) (m : positive) :
  2 ^ 52 <= Zpos q < 2 ^ 53 -> 0 <= n -> Zpos m = Zpos q * 2 ^ n ->
  Zdigits2 (Zpos m) = 53 + n.
Proof.
  intros Hq Hn Hm. rewrite Zdigits2_log2, Hm.
  rewrite Z.log2_mul_pow2 by lia.
  rewrite (Z.log2_unique (Zpos q) 52); [lia | lia | exact Hq].
Qed.

Lemma Pos_iter_xO (q d : positive) :
  Zpos (Pos.iter xO q d) = Zpos q * 2 ^ Zpos d.
Proof.
  induction d as [|d IH] using Pos.peano_ind.
  - cbn. lia.
  - rewrite Pos.iter_succ, Pos2Z.inj_xO, IH, Pos2Z.inj_succ, Z.pow_succ_r by lia.
    lia.
Qed.

Lemma iter_pos_shr_1 (n : positive) :
  forall q m : positive,
    Zpos m = Zpos q * 2 ^ Zpos n ->
    SpecFloat.iter_pos shr_1 n {| shr_m := Zpos m; shr_r := false; shr_s := false |}
    = {| shr_m := Zpos q; shr_r := false; shr_s := false |}.
Proof.
  induction n as [n IH|n IH|]; intros q m Hm; cbn [SpecFloat.iter_pos].
  - assert (H2 : 0 < 2 ^ Zpos n) by (apply Z.pow_pos_nonneg; lia).
    replace (Zpos n~1) with (Z.succ (Zpos n + Zpos n)) in Hm by lia.
    rewrite Z.pow_succ_r, Z.pow_add_r in Hm by lia.
    assert (Hx : 0 < Zpos q * 2 ^ Zpos n) by lia.
    destruct (Zpos q * 2 ^ Zpos n) as [|x|x] eqn:Ex; try lia.
    assert (Hy : 0 < Zpos x * 2 ^ Zpos n) by lia.
    destruct (Zpos x * 2 ^ Zpos n) as [|y|y] eqn:Ey; try lia.
    assert (Hmy : Zpos m = 2 * Zpos y).
    { rewrite Hm, <- Ey, <- Ex. ring. }
    destruct m as [m|m|]; try lia.
    cbn [shr_1 orb].
    rewrite (IH x m) by lia.
    apply IH. lia.
  - assert (H2 : 0 < 2 ^ Zpos n) by (apply Z.pow_pos_nonneg; lia).
    replace (Zpos n~0) with (Zpos n + Zpos n) in Hm by lia.
    rewrite Z.pow_add_r in Hm by lia.
    assert (Hx : 0 < Zpos q * 2 ^ Zpos n) by lia.
    destruct (Zpos q * 2 ^ Zpos n) as [|x|x] eqn:Ex; try lia.
    rewrite (IH x m) by (rewrite Hm, <- Ex; ring).
    apply IH. lia.
  - change (2 ^ 1) with 2 in Hm.
    destruct m as [m|m|]; try lia.
    cbn [shr_1 orb]. do 2 f_equal. lia.
Qed.

(** A mantissa of 53 digits is left as it is. *)
Lemma shr_fexp_53 (q : positive) (e : Z) :
  2 ^ 52 <= Zpos q < 2 ^ 53 -> -1074 <= e ->
  shr_fexp prec emax (Zpos q) e loc_Exact
  = ({| shr_m := Zpos q; shr_r := false; shr_s := false |}, e).
Proof.
  intros Hq He. unfold shr_fexp. rewrite (Zdigits2_53 q Hq).
  unfold fexp, emin, prec, emax.
  replace (IntDef.Z.max (53 + e - 53) (3 - 1024 - 53) - e) with 0 by lia.
  reflexivity.
Qed.

(** A mantissa that is one of 53 digits with [n] zeros appended is
    shortened without loss. *)
Lemma shr_fexp_exact (q m : positive) (n e : Z) :
  2 ^ 52 <= Zpos q < 2 ^ 53 -> 0 <= n -> -1074 <= e + n ->
  Zpos m = Zpos q * 2 ^ n ->
  shr_fexp prec emax (Zpos m) e loc_Exact
  = ({| shr_m := Zpos q; shr_r := false; shr_s := false |}, e + n).
Proof.
  intros Hq Hn He Hm.
  destruct n as [|n|n]; [| |lia].
  - assert (m = q) by lia. subst m. rewrite Z.add_0_r. apply shr_fexp_53; lia.
  - unfold shr_fexp. rewrite (Zdigits2_shift q (Zpos n) m Hq Hn Hm).
    unfold fexp, emin, prec, emax.
    replace (IntDef.Z.max (53 + Zpos n + e - 53) (3 - 1024 - 53) - e)
      with (Zpos n) by lia.
    cbn [shr shr_record_of_loc]. rewrite (iter_pos_shr_1 n q m Hm). reflexivity.
Qed.

(** Rounding a mantissa that is one of 53 digits with [n] zeros appended
    is exact. *)
Lemma binary_round_aux_exact (s : bool) (q m : positive) (n e : Z) :
  2 ^ 52 <= Zpos q < 2 ^ 53 -> 0 <= n -> -1074 <= e + n <= 971 ->
  Zpos m = Zpos q * 2 ^ n ->
  binary_round_aux prec emax s (Zpos m) e loc_Exact = S754_finite s q (e + n).
Proof.
  intros Hq Hn He Hm. unfold binary_round_aux.
  rewrite (shr_fexp_exact q m n e Hq Hn ltac:(lia) Hm).
  cbn [shr_m loc_of_shr_record round_nearest_even].
  rewrite (shr_fexp_53 q (e + n) Hq ltac:(lia)). cbn [shr_m].
  unfold emax, prec. rewrite (proj2 (Z.leb_le _ _)) by lia. reflexivity.
Qed.

Lemma shl_align_fst (q : positive) (e e' : Z) :
  e' <= e ->
  Zpos (fst (shl_align q e e')) = Zpos q * 2 ^ (e - e')
  /\ snd (shl_align q e e') = e'.
Proof.
  intros He. unfold shl_align.
  destruct (e' - e) as [|d|d] eqn:Hd; [| lia |].
  - cbn [fst snd]. replace (e - e') with 0 by lia. cbn. lia.
  - cbn [fst snd]. rewrite Pos_iter_xO. split; [|reflexivity].
    f_equal. f_equal. lia.
Qed.

(** The digits of [c] with zeros appended up to 53 digits. *)
Lemma normal_form (c : Z) :
  0 < c < 2 ^ 53 ->
  exists (q : positive) (e : Z),
    2 ^ 52 <= Zpos q < 2 ^ 53 /\ -52 <= e <= 0 /\ Zpos q = c * 2 ^ (- e).
Proof.
  intros Hc.
  pose proof (Z.log2_spec c ltac:(lia)) as Hl.
  pose proof (Z.log2_nonneg c) as Hl0.
  assert (Hl53 : Z.log2 c < 53) by (apply Z.log2_lt_pow2; lia).
  set (l := Z.log2 c) in *.
  assert (Hpow : 2 ^ 52 = 2 ^ l * 2 ^ (52 - l)).
  { rewrite <- Z.pow_add_r by lia. f_equal. lia. }
  assert (Hpow' : 2 ^ 53 = 2 ^ Z.succ l * 2 ^ (52 - l)).
  { rewrite <- Z.pow_add_r by lia. f_equal. lia. }
  assert (H2 : 0 < 2 ^ (52 - l)) by (apply Z.pow_pos_nonneg; lia).
  assert (Hq : 2 ^ 52 <= c * 2 ^ (52 - l) < 2 ^ 53).
  { rewrite Hpow, Hpow'. split.
    - apply Z.mul_le_mono_nonneg_r; lia.
    - apply Z.mul_lt_mono_pos_r; lia. }
  exists (Z.to_pos (c * 2 ^ (52 - l))), (l - 52).
  replace (- (l - 52)) with (52 - l) by lia.
  rewrite Z2Pos.id by lia. split_and!; lia.
Qed.

Lemma magnitude_bound s c x : magnitude s c x -> 0 < c < 2 ^ 53.
Proof.
  intros (q & e & _ & Hq & He & Hqc).
  assert (H2 : 1 <= 2 ^ (- e)) by (apply Z.pow_le_mono_r with (b := 0); lia).
  nia.
Qed.

Lemma magnitude_unique s c x y : magnitude s c x -> magnitude s c y -> x = y.
Proof.
  intros (q1 & e1 & -> & Hq1 & He1 & Hc1) (q2 & e2 & -> & Hq2 & He2 & Hc2).
  assert (Hc : 0 < c) by nia.
  assert (He : e1 = e2).
  { destruct (Z.lt_trichotomy e1 e2) as [Hlt | [Heq | Hgt]]; [|exact Heq|].
    - exfalso.
      assert (Hp : 2 ^ (- e1) = 2 ^ (- e2) * 2 ^ (e2 - e1)).
      { rewrite <- Z.pow_add_r by lia. f_equal. lia. }
      assert (H2 : 2 ^ 1 <= 2 ^ (e2 - e1)) by (apply Z.pow_le_mono_r; lia).
      change (2 ^ 1) with 2 in H2. rewrite Hp in Hc1. nia.
    - exfalso.
      assert (Hp : 2 ^ (- e2) = 2 ^ (- e1) * 2 ^ (e1 - e2)).
      { rewrite <- Z.pow_add_r by lia. f_equal. lia. }
      assert (H2 : 2 ^ 1 <= 2 ^ (e1 - e2)) by (apply Z.pow_le_mono_r; lia).
      change (2 ^ 1) with 2 in H2. rewrite Hp in Hc2. nia. }
  subst e2. f_equal. lia.
Qed.

Lemma represents_unique z x y : represents z x -> represents z y -> x = y.
Proof.
  unfold represents. destruct (z =? 0); [congruence | apply magnitude_unique].
Qed.

Lemma shl_align_same (q : positive) (e e' : Z) :
  e <= e' -> shl_align q e e' = (q, e).
Proof.
  intros He. unfold shl_align. destruct (e' - e) eqn:Hd; [reflexivity..|lia].
Qed.

(** Rounding an integer [c] below [2^53], given with [k] zeros appended
    and the exponent [-k], is exact. *)
Lemma binary_round_exact (s : bool) (m : positive) (c k : Z) :
  0 < c < 2 ^ 53 -> 0 <= k -> Zpos m = c * 2 ^ k ->
  magnitude s c (binary_round prec emax s m (- k)).
Proof.
  intros Hc Hk Hm.
  destruct (normal_form c Hc) as (q & e & Hq & He & Hqc).
  exists q, e. split; [|split_and!; [lia | lia | lia | exact Hqc]].
  unfold binary_round.
  change (Zpos (digits2_pos m)) with (Zdigits2 (Zpos m)).
  destruct (Z_le_gt_dec (- e) k) as [Hle|Hgt].
  - assert (Hmq : Zpos m = Zpos q * 2 ^ (k + e)).
    { rewrite Hm, Hqc, <- Z.mul_assoc, <- Z.pow_add_r by lia.
      do 2 f_equal. lia. }
    rewrite (Zdigits2_shift q (k + e) m Hq ltac:(lia) Hmq).
    unfold fexp, emin. unfold prec at 1 2, emax at 1.
    replace (IntDef.Z.max (53 + (k + e) + - k - 53) (3 - 1024 - 53)) with e
      by lia.
    rewrite shl_align_same by lia.
    rewrite (binary_round_aux_exact s q m (k + e) (- k)) by (auto; lia).
    f_equal. lia.
  - assert (Hqm : Zpos q = Zpos m * 2 ^ (- e - k)).
    { rewrite Hm, Hqc, <- Z.mul_assoc, <- Z.pow_add_r by lia.
      do 2 f_equal. lia. }
    assert (Hd : Zdigits2 (Zpos m) = 53 - (- e - k)).
    { rewrite Zdigits2_log2.
      pose proof (Z.log2_mul_pow2 (Zpos m) (- e - k) ltac:(lia) ltac:(lia)) as Hl.
      rewrite <- Hqm, (Z.log2_unique (Zpos q) 52) in Hl by lia. lia. }
    rewrite Hd.
    unfold fexp, emin. unfold prec at 1 2, emax at 1.
    replace (IntDef.Z.max (53 - (- e - k) + - k - 53) (3 - 1024 - 53)) with e
      by lia.
    destruct (shl_align_fst m (- k) e ltac:(lia)) as (Hfst & Hsnd).
    destruct (shl_align m (- k) e) as [mz ez]. cbn [fst snd] in Hfst, Hsnd.
    subst ez.
    assert (Hmz : Zpos mz = Zpos q * 2 ^ 0).
    { rewrite Hfst, Hqm, Z.mul_1_r. do 2 f_equal. lia. }
    rewrite (binary_round_aux_exact s q mz 0 e Hq ltac:(lia) ltac:(lia) Hmz).
    f_equal. lia.
Qed.

Lemma binary_normalize_represents (z e : Z) :
  Z.abs z < 2 ^ 53 -> e <= 0 ->
  represents z (binary_normalize prec emax (z * 2 ^ (- e)) e false).
Proof.
  intros Hz He. unfold represents.
  assert (H2 : 0 < 2 ^ (- e)) by (apply Z.pow_pos_nonneg; lia).
  destruct (Z.eqb_spec z 0) as [->|Hne]; [reflexivity|].
  destruct (z * 2 ^ (- e)) as [|m|m] eqn:Hm; [nia | |].
  - cbn [binary_normalize].
    rewrite (proj2 (Z.ltb_ge z 0)) by nia.
    rewrite <- (Z.opp_involutive e) at 1.
    apply (binary_round_exact false m (Z.abs z) (- e)); [lia | lia |].
    rewrite Z.abs_eq by nia. auto.
  - cbn [binary_normalize].
    rewrite (proj2 (Z.ltb_lt z 0)) by nia.
    rewrite <- (Z.opp_involutive e) at 1.
    apply (binary_round_exact true m (Z.abs z) (- e)); [lia | lia |].
    rewrite Z.abs_neq by nia. lia.
Qed.

Lemma represents_bound z x : represents z x -> Z.abs z < 2 ^ 53.
Proof.
  unfold represents. destruct (Z.eqb_spec z 0) as [->|Hne]; [reflexivity|].
  intros H. apply magnitude_bound in H. lia.
Qed.

Lemma cond_Zopp_sign (a X : Z) :
  cond_Zopp (a <? 0) (Z.abs a * X) = a * X.
Proof.
  unfold cond_Zopp. destruct (Z.ltb_spec a 0).
  - rewrite Z.abs_neq by lia. ring.
  - rewrite Z.abs_eq by lia. ring.
Qed.

(** The aligned mantissa of a number, with its sign. *)
Lemma aligned_mantissa (a : Z) (q : positive) (e ez : Z) :
  e <= 0 -> ez <= e -> Zpos q = Z.abs a * 2 ^ (- e) ->
  cond_Zopp (a <? 0) (Zpos (fst (shl_align q e ez))) = a * 2 ^ (- ez).
Proof.
  intros He Hez Hq.
  rewrite (proj1 (shl_align_fst q e ez Hez)), Hq, <- Z.mul_assoc,
    <- Z.pow_add_r by lia.
  replace (- e + (e - ez)) with (- ez) by lia. apply cond_Zopp_sign.
Qed.

(** The sum of two integers is exact when it is below [2^53] in
    magnitude. *)
Lemma SFadd_represents a b x y :
  represents a x -> represents b y -> Z.abs (a + b) < 2 ^ 53 ->
  represents (a + b) (SFadd prec emax x y).
Proof.
  unfold represents at 1 2.
  destruct (Z.eqb_spec a 0) as [->|Ha]; destruct (Z.eqb_spec b 0) as [->|Hb].
  - intros -> -> _. reflexivity.
  - intros -> Hy _. unfold represents. rewrite Z.add_0_l.
    rewrite (proj2 (Z.eqb_neq b 0)) by exact Hb.
    destruct Hy as (q & e & -> & Hy). cbn. exists q, e. auto.
  - intros Hx -> _. unfold represents. rewrite Z.add_0_r.
    rewrite (proj2 (Z.eqb_neq a 0)) by exact Ha.
    destruct Hx as (q & e & -> & Hx). cbn. exists q, e. auto.
  - intros (qa & ea & -> & Hqa & Hea & Ha') (qb & eb & -> & Hqb & Heb & Hb') Hab.
    cbn [SFadd].
    rewrite (aligned_mantissa a qa ea (IntDef.Z.min ea eb)) by (auto; lia).
    rewrite (aligned_mantissa b qb eb (IntDef.Z.min ea eb)) by (auto; lia).
    rewrite <- Z.mul_add_distr_r.
    apply binary_normalize_represents; [exact Hab | lia].
Qed.

Lemma SFsub_represents a b x y :
  represents a x -> represents b y -> Z.abs (a - b) < 2 ^ 53 ->
  represents (a - b) (SFsub prec emax x y).
Proof.
  unfold represents at 1 2.
  destruct (Z.eqb_spec a 0) as [->|Ha]; destruct (Z.eqb_spec b 0) as [->|Hb].
  - intros -> -> _. reflexivity.
  - intros -> Hy _. unfold represents. rewrite Z.sub_0_l.
    rewrite (proj2 (Z.eqb_neq (- b) 0)) by lia.
    destruct Hy as (q & e & -> & Hy). cbn [SFsub]. exists q, e.
    rewrite Z.abs_opp. split; [|exact Hy]. f_equal.
    destruct (Z.ltb_spec b 0), (Z.ltb_spec (- b) 0); try reflexivity; lia.
  - intros Hx -> _. unfold represents. rewrite Z.sub_0_r.
    rewrite (proj2 (Z.eqb_neq a 0)) by exact Ha.
    destruct Hx as (q & e & -> & Hx). cbn. exists q, e. auto.
  - intros (qa & ea & -> & Hqa & Hea & Ha') (qb & eb & -> & Hqb & Heb & Hb') Hab.
    cbn [SFsub].
    rewrite (aligned_mantissa a qa ea (IntDef.Z.min ea eb)) by (auto; lia).
    rewrite (aligned_mantissa b qb eb (IntDef.Z.min ea eb)) by (auto; lia).
    rewrite <- Z.mul_sub_distr_r.
    apply binary_normalize_represents; [exact Hab | lia].
Qed.

(** The product of two integers is exact when it is below [2^53] in
    magnitude; the numbers are not zero, or none of them is negative. *)
Lemma SFmul_represents a b x y :
  represents a x -> represents b y -> Z.abs (a * b) < 2 ^ 53 ->
  (a <> 0 /\ b <> 0) \/ (0 <= a /\ 0 <= b) ->
  represents (a * b) (SFmul prec emax x y).
Proof.
  unfold represents at 1 2.
  destruct (Z.eqb_spec a 0) as [->|Ha]; destruct (Z.eqb_spec b 0) as [->|Hb].
  - intros -> -> _ _. reflexivity.
  - intros -> (q & e & -> & _) _ [[H _]|[_ H]]; [contradiction|].
    rewrite (proj2 (Z.ltb_ge b 0)) by exact H. reflexivity.
  - intros (q & e & -> & _) -> _ [[_ H]|[H _]]; [contradiction|].
    rewrite (proj2 (Z.ltb_ge a 0)) by exact H. rewrite Z.mul_0_r. reflexivity.
  - intros (qa & ea & -> & Hqa & Hea & Ha') (qb & eb & -> & Hqb & Heb & Hb')
      Hab _.
    cbn [SFmul]. unfold represents.
    rewrite (proj2 (Z.eqb_neq (a * b) 0)) by nia.
    destruct (normal_form (Z.abs (a * b)) ltac:(nia)) as (q & e & Hq & He & Hqc).
    exists q, e. split; [|split_and!; [lia | lia | lia | exact Hqc]].
    assert (Hprod : Zpos (qa * qb) = Z.abs (a * b) * 2 ^ (- ea - eb)).
    { rewrite Pos2Z.inj_mul, Ha', Hb', Z.abs_mul.
      replace (- ea - eb) with (- ea + - eb) by lia.
      rewrite Z.pow_add_r by lia. ring. }
    assert (Hn : 0 <= e - ea - eb).
    { destruct (Z_le_gt_dec 0 (e - ea - eb)) as [H|H]; [exact H|exfalso].
      assert (Hp : 2 ^ (- e) = 2 ^ (- ea - eb) * 2 ^ (ea + eb - e)).
      { rewrite <- Z.pow_add_r by lia. f_equal. lia. }
      assert (H2 : 1 <= 2 ^ (ea + eb - e))
        by (apply Z.pow_le_mono_r with (b := 0); lia).
      rewrite Hp, Z.mul_assoc, <- Hprod in Hqc.
      rewrite Pos2Z.inj_mul in Hqc. nia. }
    assert (Hm : Zpos (qa * qb) = Zpos q * 2 ^ (e - ea - eb)).
    { rewrite Hprod, Hqc, <- Z.mul_assoc, <- Z.pow_add_r by lia.
      do 2 f_equal. lia. }
    rewrite (binary_round_aux_exact _ q (qa * qb) (e - ea - eb) (ea + eb) Hq Hn
               ltac:(lia) Hm).
    f_equal.
    + destruct (Z.ltb_spec a 0), (Z.ltb_spec b 0), (Z.ltb_spec (a * b) 0);
        try reflexivity; nia.
    + lia.
Qed.

(** Halving an even integer is exact; the divisor is the binary64
    number 2. *)
Lemma SFdiv_2_represents c x :
  represents (2 * c) x ->
  represents c (SFdiv prec emax x (S754_finite false (2 ^ 52) (- 51))).
Proof.
  unfold represents.
  destruct (Z.eqb_spec (2 * c) 0) as [H0|H0].
  - intros ->. rewrite (proj2 (Z.eqb_eq c 0)) by lia. reflexivity.
  - rewrite (proj2 (Z.eqb_neq c 0)) by lia.
    intros (q & e & -> & Hq & He & Hqc).
    exists q, (e - 1).
    assert (Hc : Zpos q = Z.abs c * 2 ^ (- (e - 1))).
    { replace (- (e - 1)) with (Z.succ (- e)) by lia.
      rewrite Z.pow_succ_r, Hqc by lia. rewrite Z.abs_mul.
      change (Z.abs 2) with 2. ring. }
    split; [|split_and!; [lia | lia | lia | exact Hc]].
    cbn [SFdiv]. unfold SFdiv_core_binary.
    rewrite (Zdigits2_53 q Hq).
    change (Zdigits2 (Zpos (2 ^ 52))) with 53.
    unfold fexp, emin.
    assert (He52 : - 52 <= e).
    { destruct (Z_le_gt_dec (- 52) e) as [H|H]; [exact H|exfalso].
      assert (H2 : 2 ^ 53 <= 2 ^ (- e)) by (apply Z.pow_le_mono_r; lia).
      nia. }
    assert (Hexp : IntDef.Z.min
                     (IntDef.Z.max (53 + e - (53 + - 51) - prec)
                        (3 - emax - prec))
                     (e - - 51) = e - 2) by (unfold prec, emax; lia).
    rewrite !Hexp.
    replace (e - - 51 - (e - 2)) with 53 by lia.
    rewrite Z.shiftl_mul_pow2 by lia.
    assert (Hdiv : Z.div_eucl (Zpos q * 2 ^ 53) (Zpos (2 ^ 52))
                   = (Zpos q~0, 0)).
    { pose proof (Z.div_mod (Zpos q * 2 ^ 53) (Zpos (2 ^ 52)) ltac:(lia)) as Hdm.
      pose proof (Z.mod_pos_bound (Zpos q * 2 ^ 53) (Zpos (2 ^ 52)) ltac:(lia))
        as Hmod.
      unfold Z.div, Z.modulo in Hdm, Hmod.
      destruct (Z.div_eucl (Zpos q * 2 ^ 53) (Zpos (2 ^ 52))) as [d r].
      change (2 ^ 53) with (2 * Zpos (2 ^ 52)) in Hdm.
      f_equal; nia. }
    rewrite Hdiv. cbn [new_location].
    change (new_location (Zpos (2 ^ 52)) 0) with loc_Exact.
    rewrite (binary_round_aux_exact _ q (q~0) 1 (e - 2) Hq ltac:(lia)
               ltac:(lia) ltac:(lia)).
    f_equal.
    + destruct (Z.ltb_spec (2 * c) 0), (Z.ltb_spec c 0); try reflexivity; lia.
    + lia.
Qed.

(** Magnitudes compare as their exponents and mantissas. *)
Lemma magnitude_compare sa sb ca cb qa ea qb eb :
  magnitude sa ca (S754_finite sa qa ea) ->
  magnitude sb cb (S754_finite sb qb eb) ->
  match ea ?= eb with
  | Lt => Lt
  | Gt => Gt
  | Eq => Pos.compare_cont Eq qa qb
  end = (ca ?= cb).
Proof.
  intros (qa' & ea' & [= <- <-] & Hqa & Hea & Ha')
    (qb' & eb' & [= <- <-] & Hqb & Heb & Hb').
  assert (Ha0 : 0 < ca) by nia. assert (Hb0 : 0 < cb) by nia.
  destruct (Z.compare_spec ea eb) as [Heq|Hlt|Hgt].
  - subst eb. change (Pos.compare_cont Eq qa qb) with (Zpos qa ?= Zpos qb).
    rewrite Ha', Hb'.
    assert (H2 : 0 < 2 ^ (- ea)) by (apply Z.pow_pos_nonneg; lia).
    destruct (Z.compare_spec ca cb) as [H|H|H].
    + subst cb. apply Z.compare_refl.
    + apply Z.compare_lt_iff. nia.
    + apply Z.compare_gt_iff. nia.
  - symmetry. apply Z.compare_lt_iff.
    assert (Hp : 2 ^ (- ea) = 2 ^ (- eb) * 2 ^ (eb - ea)).
    { rewrite <- Z.pow_add_r by lia. f_equal. lia. }
    assert (H2 : 2 ^ 1 <= 2 ^ (eb - ea)) by (apply Z.pow_le_mono_r; lia).
    change (2 ^ 1) with 2 in H2.
    assert (H3 : 0 < 2 ^ (- eb)) by (apply Z.pow_pos_nonneg; lia).
    rewrite Hp in Ha'. nia.
  - symmetry. apply Z.compare_gt_iff.
    assert (Hp : 2 ^ (- eb) = 2 ^ (- ea) * 2 ^ (ea - eb)).
    { rewrite <- Z.pow_add_r by lia. f_equal. lia. }
    assert (H2 : 2 ^ 1 <= 2 ^ (ea - eb)) by (apply Z.pow_le_mono_r; lia).
    change (2 ^ 1) with 2 in H2.
    assert (H3 : 0 < 2 ^ (- ea)) by (apply Z.pow_pos_nonneg; lia).
    rewrite Hp in Hb'. nia.
Qed.

(** Integers compare as their binary64 numbers. *)
Lemma SFcompare_represents a b x y :
  represents a x -> represents b y -> SFcompare x y = Some (a ?= b).
Proof.
  unfold represents.
  destruct (Z.eqb_spec a 0) as [->|Ha]; destruct (Z.eqb_spec b 0) as [->|Hb].
  - intros -> ->. reflexivity.
  - intros -> (q & e & -> & _). cbn [SFcompare]. f_equal. symmetry.
    destruct (Z.ltb_spec b 0); [apply Z.compare_gt_iff | apply Z.compare_lt_iff];
      lia.
  - intros (q & e & -> & _) ->. cbn [SFcompare]. f_equal. symmetry.
    destruct (Z.ltb_spec a 0); [apply Z.compare_lt_iff | apply Z.compare_gt_iff];
      lia.
  - intros Hx Hy.
    destruct Hx as (qa & ea & -> & Hx). destruct Hy as (qb & eb & -> & Hy).
    pose proof (magnitude_compare (a <? 0) (b <? 0) (Z.abs a) (Z.abs b)
                  qa ea qb eb
                  ltac:(exists qa, ea; auto) ltac:(exists qb, eb; auto)) as Hcmp.
    cbn [SFcompare]. f_equal.
    destruct (Z.ltb_spec a 0) as [Ha0|Ha0], (Z.ltb_spec b 0) as [Hb0|Hb0].
    + transitivity (CompOpp (Z.abs a ?= Z.abs b)).
      { rewrite <- Hcmp. destruct (ea ?= eb); reflexivity. }
      rewrite <- Z.compare_antisym, !Z.abs_neq by lia.
      apply Z.compare_opp.
    + symmetry. apply Z.compare_lt_iff. lia.
    + symmetry. apply Z.compare_gt_iff. lia.
    + rewrite Hcmp, !Z.abs_eq by lia. reflexivity.
Qed.

Lemma SFopp_represents z x :
  z <> 0 -> represents z x -> represents (- z) (SFopp x).
Proof.
  intros Hz. unfold represents.
  rewrite (proj2 (Z.eqb_neq z 0)), (proj2 (Z.eqb_neq (- z) 0)) by lia.
  intros (q & e & -> & H). exists q, e. rewrite Z.abs_opp.
  split; [|exact H]. cbn [SFopp]. f_equal.
  destruct (Z.ltb_spec z 0), (Z.ltb_spec (- z) 0); try reflexivity; lia.
Qed.

Lemma of_uint63_represents z :
  0 <= z < 2 ^ 53 ->
  represents z (Prim2SF (PrimFloat.of_uint63 (Uint63.of_Z z))).
Proof.
  intros Hz. rewrite FloatAxioms.of_uint63_spec, Uint63.of_Z_spec.
  rewrite Z.mod_small by (change wB with (2 ^ 63); lia).
  pose proof (binary_normalize_represents z 0 ltac:(lia) ltac:(lia)) as H.
  change (2 ^ (- 0)) with 1 in H. rewrite Z.mul_1_r in H. exact H.
Qed.

(** The Number of an integer below [2^53] in magnitude is that integer. *)
Lemma of_int_represents z :
  Z.abs z < 2 ^ 53 -> represents z (Prim2SF (Js.of_int z)).
Proof.
  intros Hz. unfold Js.of_int. destruct (Z.ltb_spec z 0) as [Hneg|Hpos].
  - rewrite FloatAxioms.opp_spec. rewrite <- (Z.opp_involutive z) at 1.
    apply SFopp_represents; [lia|]. apply of_uint63_represents. lia.
  - apply of_uint63_represents. lia.
Qed.

Lemma of_int_unique z (x : float) :
  represents z (Prim2SF x) -> x = Js.of_int z.
Proof.
  intros Hx. apply Prim2SF_inj, (represents_unique z); [exact Hx|].
  apply of_int_represents, (represents_bound z _ Hx).
Qed.

Lemma to_int_of_int z : Z.abs z < 2 ^ 53 -> Js.to_int (Js.of_int z) = Some z.
Proof.
  intros Hz. pose proof (of_int_represents z Hz) as H.
  unfold Js.to_int. unfold represents in H.
  destruct (Z.eqb_spec z 0) as [->|Hne]; [rewrite H; reflexivity|].
  destruct H as (q & e & -> & Hq & He & Hqz).
  assert (Hsign : cond_Zopp (z <? 0) (Z.abs z) = z).
  { rewrite <- (Z.mul_1_r (Z.abs z)), cond_Zopp_sign. lia. }
  destruct (Z.leb_spec 0 e) as [H0|H0].
  - assert (e = 0) by lia. subst e. change (2 ^ (- 0)) with 1 in Hqz.
    change (2 ^ 0) with 1. rewrite Hqz, !Z.mul_1_r, Hsign. reflexivity.
  - assert (H2 : 0 < 2 ^ (- e)) by (apply Z.pow_pos_nonneg; lia).
    rewrite Hqz, Z.mod_mul, Z.div_mul by lia. cbn [Z.eqb].
    rewrite Hsign. reflexivity.
Qed.

Lemma of_int_add a b :
  Z.abs a < 2 ^ 53 -> Z.abs b < 2 ^ 53 -> Z.abs (a + b) < 2 ^ 53 ->
  (Js.of_int a + Js.of_int b)%float = Js.of_int (a + b).
Proof.
  intros Ha Hb Hab. apply of_int_unique. rewrite FloatAxioms.add_spec.
  apply SFadd_represents; auto using of_int_represents.
Qed.

Lemma of_int_sub a b :
  Z.abs a < 2 ^ 53 -> Z.abs b < 2 ^ 53 -> Z.abs (a - b) < 2 ^ 53 ->
  (Js.of_int a - Js.of_int b)%float = Js.of_int (a - b).
Proof.
  intros Ha Hb Hab. apply of_int_unique. rewrite FloatAxioms.sub_spec.
  apply SFsub_represents; auto using of_int_represents.
Qed.

Lemma of_int_mul a b :
  Z.abs a < 2 ^ 53 -> Z.abs b < 2 ^ 53 -> Z.abs (a * b) < 2 ^ 53 ->
  (a <> 0 /\ b <> 0) \/ (0 <= a /\ 0 <= b) ->
  (Js.of_int a * Js.of_int b)%float = Js.of_int (a * b).
Proof.
  intros Ha Hb Hab Hsign. apply of_int_unique. rewrite FloatAxioms.mul_spec.
  apply SFmul_represents; auto using of_int_represents.
Qed.

Lemma of_int_half c :
  Z.abs (2 * c) < 2 ^ 53 -> (Js.of_int (2 * c) / 2)%float = Js.of_int c.
Proof.
  intros Hc. apply of_int_unique. rewrite FloatAxioms.div_spec.
  change (Prim2SF 2) with (S754_finite false (2 ^ 52) (- 51)).
  apply SFdiv_2_represents, of_int_represents, Hc.
Qed.

Lemma of_int_leb a b :
  Z.abs a < 2 ^ 53 -> Z.abs b < 2 ^ 53 ->
  (Js.of_int a <=? Js.of_int b)%float = (a <=? b).
Proof.
  intros Ha Hb. rewrite FloatAxioms.leb_spec. unfold SFleb.
  rewrite (SFcompare_represents a b) by auto using of_int_represents.
  unfold Z.leb. destruct (a ?= b); reflexivity.
Qed.

(** ** Problem 1 *)

Lemma sum_1_to_closed (k : nat) :
  2 * sum_1_to k = Z.of_nat k * (Z.of_nat k + 1).
Proof.
  induction k as [|k IH]; [reflexivity|].
  change (sum_1_to (S k)) with (sum_1_to k + Z.of_nat (S k)). lia.
Qed.

Lemma sum_1_to_half (k : nat) :
  sum_1_to k = (Z.of_nat k * (Z.of_nat k + 1)) / 2.
Proof.
  rewrite <- sum_1_to_closed, Z.mul_comm, Z.div_mul; lia.
Qed.

(** The sums [1..i] for [0 <= i <= n] stay within the range of [n]. *)
Lemma sum_1_to_bound (n i : Z) :
  0 <= i <= n -> n * (n + 1) < 2 ^ 53 ->
  0 <= sum_1_to (Z.to_nat i) < 2 ^ 53 /\ i + 1 < 2 ^ 53.
Proof.
  intros Hi Hn.
  pose proof (sum_1_to_closed (Z.to_nat i)) as Hc.
  rewrite Z2Nat.id in Hc by lia.
  assert (i * (i + 1) <= n * (n + 1)) by nia.
  split; [nia|].
  destruct (Z.eq_dec n 0) as [->|Hne]; [|nia].
  assert (i = 0) by lia. subst i. reflexivity.
Qed.

Lemma sum_1_to_succ (i : Z) :
  1 <= i -> sum_1_to (Z.to_nat i) = sum_1_to (Z.to_nat (i - 1)) + i.
Proof.
  intros Hi. replace (Z.to_nat i) with (S (Z.to_nat (i - 1))) by lia.
  change (sum_1_to (S (Z.to_nat (i - 1))))
    with (sum_1_to (Z.to_nat (i - 1)) + Z.of_nat (S (Z.to_nat (i - 1)))).
  lia.
Qed.

Lemma sum_to_n_a_spec (n : Z) :
  0 <= n -> n * (n + 1) < 2 ^ 53 ->
  sum_to_n_a (Js.of_int n) = Js.of_int (sum_1_to (Z.to_nat n)).
Proof.
  intros Hn Hr. destruct (sum_1_to_bound n n ltac:(lia) Hr) as (Hs & H1).
  pose proof (sum_1_to_closed (Z.to_nat n)) as Hc.
  rewrite Z2Nat.id in Hc by lia.
  unfold sum_to_n_a. change 1%float with (Js.of_int 1).
  rewrite of_int_add by lia. rewrite of_int_mul by lia.
  rewrite <- Hc. apply of_int_half. lia.
Qed.

(** The loop, entered at [i] with the sum of [1..i-1], ends with the sum
    of [1..n]. *)
Lemma sum_loop_spec (k : nat) :
  forall (fuel : nat) (n i : Z),
    n * (n + 1) < 2 ^ 53 -> 1 <= i -> Z.of_nat k = n + 1 - i ->
    (k < fuel)%nat ->
    sum_loop fuel (Js.of_int n) (Js.of_int i)
      (Js.of_int (sum_1_to (Z.to_nat (i - 1))))
    = Some (Js.of_int (sum_1_to (Z.to_nat n))).
Proof.
  induction k as [|k IH]; intros fuel n i Hr Hi Hk Hfuel;
    (destruct fuel as [|fuel]; [lia|]); cbn [sum_loop];
    destruct (sum_1_to_bound n n ltac:(lia) Hr) as (_ & Hn1).
  - rewrite of_int_leb by lia. rewrite (proj2 (Z.leb_gt i n)) by lia.
    replace (i - 1) with n by lia. reflexivity.
  - destruct (sum_1_to_bound n i ltac:(lia) Hr) as (Hsi & _).
    destruct (sum_1_to_bound n (i - 1) ltac:(lia) Hr) as (Hsi' & _).
    rewrite of_int_leb by lia. rewrite (proj2 (Z.leb_le i n)) by lia.
    change 1%float with (Js.of_int 1).
    rewrite of_int_add by lia.
    rewrite of_int_add by (rewrite <- ?sum_1_to_succ; lia).
    rewrite <- sum_1_to_succ by lia.
    replace i with (i + 1 - 1) at 2 by lia.
    apply IH; lia.
Qed.

Lemma sum_to_n_b_spec (fuel : nat) (n : Z) :
  0 <= n -> n * (n + 1) < 2 ^ 53 -> n < Z.of_nat fuel ->
  sum_to_n_b fuel (Js.of_int n) = Some (Js.of_int (sum_1_to (Z.to_nat n))).
Proof.
  intros Hn Hr Hfuel.
  apply (sum_loop_spec (Z.to_nat n) fuel n 1); lia.
Qed.

Lemma sum_to_n_c_spec (k : nat) :
  forall (stack : nat) (n : Z),
    0 <= n -> n * (n + 1) < 2 ^ 53 -> Z.to_nat n = k ->
    Z.max n 1 <= Z.of_nat stack ->
    sum_to_n_c stack (Js.of_int n) = Some (Js.of_int (sum_1_to k)).
Proof.
  induction k as [|k IH]; intros stack n Hn Hr Hk Hstack;
    (destruct stack as [|stack]; [lia|]); cbn [sum_to_n_c];
    destruct (sum_1_to_bound n n ltac:(lia) Hr) as (Hs & Hn1);
    change 1%float with (Js.of_int 1); rewrite of_int_leb by lia.
  - assert (n = 0) by lia. subst n. reflexivity.
  - destruct (Z.leb_spec n 1) as [Hle|Hgt].
    + assert (n = 1) by lia. subst n. assert (k = O) by lia. subst k.
      reflexivity.
    + rewrite of_int_sub by lia.
      rewrite (IH stack (n - 1)) by (try lia; nia).
      destruct (sum_1_to_bound n (n - 1) ltac:(lia) Hr) as (Hs' & _).
      replace (Z.to_nat (n - 1)) with k in Hs' by lia.
      rewrite (sum_1_to_succ n) in Hs by lia.
      replace (Z.to_nat (n - 1)) with k in Hs by lia.
      rewrite of_int_add by lia.
      do 2 f_equal.
      change (sum_1_to (S k)) with (sum_1_to k + Z.of_nat (S k)). lia.
Qed.

(** The call stack is too small for the recursion. *)
Lemma sum_to_n_c_overflow (stack : nat) :
  forall n : Z,
    Z.abs n < 2 ^ 53 -> Z.max n 1 > Z.of_nat stack ->
    sum_to_n_c stack (Js.of_int n) = None.
Proof.
  induction stack as [|stack IH]; intros n Hr Hstack; [reflexivity|].
  cbn [sum_to_n_c]. change 1%float with (Js.of_int 1).
  rewrite of_int_leb by lia. rewrite (proj2 (Z.leb_gt n 1)) by lia.
  rewrite of_int_sub by lia. rewrite IH by lia. reflexivity.
Qed.

(** C10, amended. For every integer [n >= 0] with [n * (n + 1) < 2^53],
    [sum_to_n_a] returns the sum of the integers [1..n], which is
    [n * (n + 1) / 2], without rounding, and so does [sum_to_n_b], whose
    loop ends after [n + 1] tests. [sum_to_n_c] returns the same number
    when the call stack has room for [max n 1] nested calls, and throws
    otherwise. *)
Theorem sum_to_n_agree (n : Z) (fuel stack : nat) :
  0 <= n -> n * (n + 1) < 2 ^ 53 -> n < Z.of_nat fuel ->
  let sum := Js.of_int (sum_1_to (Z.to_nat n)) in
  sum_to_n_a (Js.of_int n) = sum
  /\ sum_to_n_b fuel (Js.of_int n) = Some sum
  /\ sum_to_n_c stack (Js.of_int n)
     = (if Z.max n 1 <=? Z.of_nat stack then Some sum else None)
  /\ Js.to_int (Js.of_int n) = Some n
  /\ Js.to_int sum = Some (n * (n + 1) / 2).
Proof.
  intros Hn Hr Hfuel. cbn zeta.
  destruct (sum_1_to_bound n n ltac:(lia) Hr) as (Hs & Hn1).
  split_and!.
  - apply sum_to_n_a_spec; assumption.
  - apply sum_to_n_b_spec; assumption.
  - destruct (Z.leb_spec (Z.max n 1) (Z.of_nat stack)) as [Hle|Hgt].
    + apply sum_to_n_c_spec; auto.
    + apply sum_to_n_c_overflow; lia.
  - apply to_int_of_int. lia.
  - rewrite to_int_of_int by lia. rewrite sum_1_to_half, Z2Nat.id by lia.
    reflexivity.
Qed.

Lemma sum_to_n_agree_witness :
  sum_to_n_a (Js.of_int 10) = Js.of_int 55
  /\ sum_to_n_b 11 (Js.of_int 10) = Some (Js.of_int 55)
  /\ sum_to_n_c 10 (Js.of_int 10) = Some (Js.of_int 55)
  /\ Js.to_int (Js.of_int 10) = Some 10
  /\ Js.to_int (Js.of_int 55) = Some 55.
Proof.
  apply (sum_to_n_agree 10 11 10); [lia | reflexivity | lia].
Defined.

(** C10, the claim as stated fails in two ways. With a call stack of
    [10000] frames [sum_to_n_c(10001)] throws, while [sum_to_n_a] and
    [sum_to_n_b] return [50015001]. And [200000001] is a Number that is an
    integer, but [sum_to_n_a(200000001)] is not the sum
    [20000000300000001]: the product [n * (n + 1)] exceeds [2^53] and is
    rounded. *)
Lemma sum_to_n_limits :
  sum_to_n_c (Z.to_nat 10000) (Js.of_int 10001) = None
  /\ sum_to_n_a (Js.of_int 10001) = Js.of_int 50015001
  /\ sum_to_n_b (Z.to_nat 10002) (Js.of_int 10001) = Some (Js.of_int 50015001)
  /\ Js.to_int (Js.of_int 200000001) = Some 200000001
  /\ Js.to_int (sum_to_n_a (Js.of_int 200000001)) = Some 20000000300000000
  /\ 200000001 * (200000001 + 1) / 2 = 20000000300000001.
Proof. vm_compute. auto 10. Qed.

(** ** [utils/currency.js] *)

(** A number above zero is neither zero nor [NaN]. *)
Lemma positive_truthy (p : float) :
  PrimFloat.ltb PrimFloat.zero p = true -> Js.num_truthy p = true.
Proof.
  unfold Js.num_truthy, PrimFloat.is_nan.
  rewrite FloatAxioms.ltb_spec, !FloatAxioms.eqb_spec.
  change (Prim2SF PrimFloat.zero) with (S754_zero false).
  destruct (Prim2SF p) as [s| [|] | |[|] m e]; cbn; try discriminate; intros _.
  - reflexivity.
  - unfold SFeqb; cbn. rewrite Z.compare_refl, Pos.compare_cont_refl.
    reflexivity.
Qed.

(** A truthy number is not zero. *)
Lemma truthy_not_zero (p : float) :
  Js.num_truthy p = true -> PrimFloat.eqb p PrimFloat.zero = false.
Proof.
  unfold Js.num_truthy. destruct (PrimFloat.eqb p PrimFloat.zero); [discriminate | reflexivity].
Qed.

(** The rate of two tokens whose prices are truthy is the quotient of the
    prices. *)
Lemma calculateExchangeRate_truthy (f t : Token.t) (p q : float) :
  Token.price f = Some p -> Token.price t = Some q ->
  Js.num_truthy p = true -> Js.num_truthy q = true ->
  calculateExchangeRate (Some f) (Some t) = PrimFloat.div p q.
Proof.
  intros Hp Hq Tp Tq. unfold calculateExchangeRate. cbn.
  rewrite Hp, Hq. cbn. rewrite Tp, Tq, (truthy_not_zero p Tp). reflexivity.
Qed.

(** The rate is zero as soon as one price is falsy: absent, zero or
    [NaN]. *)
Lemma calculateExchangeRate_falsy (f t : option Token.t) :
  Js.prop_truthy (f ≫= Token.price) = false
  \/ Js.prop_truthy (t ≫= Token.price) = false ->
  calculateExchangeRate f t = PrimFloat.zero.
Proof.
  unfold calculateExchangeRate. intros [H|H]; rewrite H; cbn.
  - reflexivity.
  - rewrite orb_true_r. reflexivity.
Qed.

(** C3, as amended. [calculateExchangeRate] returns [0] when a token is
    [null] or its price is absent, zero or [NaN], and the quotient of the
    prices otherwise, so for two positive prices and also when a price is
    negative. For ETH at 2000 against BTC at 30000 the result is within
    [0.00005] of [0.0667]. *)
Theorem calculateExchangeRate_spec :
  (forall t, calculateExchangeRate None t = PrimFloat.zero)
  /\ (forall f, calculateExchangeRate f None = PrimFloat.zero)
  /\ (forall f t,
        Js.prop_truthy (Token.price f) = false
        \/ Js.prop_truthy (Token.price t) = false ->
        calculateExchangeRate (Some f) (Some t) = PrimFloat.zero)
  /\ (forall f t p q,
        Token.price f = Some p -> Token.price t = Some q ->
        Js.num_truthy p = true -> Js.num_truthy q = true ->
        calculateExchangeRate (Some f) (Some t) = PrimFloat.div p q)
  /\ (forall f t p q,
        Token.price f = Some p -> Token.price t = Some q ->
        PrimFloat.ltb PrimFloat.zero p = true ->
        PrimFloat.ltb PrimFloat.zero q = true ->
        calculateExchangeRate (Some f) (Some t) = PrimFloat.div p q)
  /\ calculateExchangeRate (Some zeroToken) (Some BTC) = PrimFloat.zero
  /\ (exists a b,
        Js.ratio_of_number (calculateExchangeRate (Some ETH) (Some BTC))
          = Some (a, b)
        /\ 0 < b
        /\ 100000 * Z.abs (10000 * a - 667 * b) < 5 * (10000 * b)).
Proof.
  split_and!.
  - intros t. apply calculateExchangeRate_falsy. left. reflexivity.
  - intros f. apply calculateExchangeRate_falsy. right. reflexivity.
  - intros f t H. apply calculateExchangeRate_falsy. exact H.
  - intros f t p q. apply calculateExchangeRate_truthy.
  - intros f t p q Hp Hq Pp Pq.
    apply (calculateExchangeRate_truthy f t p q Hp Hq);
      apply positive_truthy; assumption.
  - vm_compute. reflexivity.
  - eexists _, _. split; [vm_compute; reflexivity|]. split; vm_compute; reflexivity.
Qed.

Lemma calculateExchangeRate_spec_witness :
  calculateExchangeRate (Some ETH) (Some BTC)
    = PrimFloat.div 2000%float 30000%float
  /\ calculateExchangeRate (Some zeroToken) (Some BTC) = PrimFloat.zero.
Proof.
  destruct calculateExchangeRate_spec as (_ & _ & Hfalsy & _ & Hpos & _).
  split.
  - apply (Hpos ETH BTC); reflexivity.
  - apply (Hfalsy zeroToken BTC). left. reflexivity.
Defined.

(** C3, the claim as stated fails on a negative price: the token has no
    positive price, and the result is not [0] but the negative quotient. *)
Lemma calculateExchangeRate_negative_price :
  let debt := Token.mk "DEBT" (Some (-1)%float) None None in
  PrimFloat.ltb PrimFloat.zero (-1)%float = false
  /\ calculateExchangeRate (Some debt) (Some BTC)
     = PrimFloat.div (-1)%float 30000%float
  /\ PrimFloat.eqb (calculateExchangeRate (Some debt) (Some BTC)) PrimFloat.zero
     = false.
Proof. vm_compute. auto. Qed.

(** C4. [validateSwapData] checks, in this order, that there is a source
    token, that there is a target token, that their currencies differ and
    that the amount is valid; the first check that fails decides the result,
    whatever the later arguments are, and the result is valid when all four
    pass. *)
Theorem validateSwapData_spec :
  (forall t a,
      validateSwapData None t a = invalid "Please select a token to swap from")
  /\ (forall f a,
        validateSwapData (Some f) None a
          = invalid "Please select a token to swap to")
  /\ (forall f t a,
        Token.currency f = Token.currency t ->
        validateSwapData (Some f) (Some t) a
          = invalid "Cannot swap the same token")
  /\ (forall f t a,
        Token.currency f <> Token.currency t ->
        isValidAmount a = false ->
        validateSwapData (Some f) (Some t) a
          = invalid "Please enter a valid amount")
  /\ (forall f t a,
        Token.currency f <> Token.currency t ->
        isValidAmount a = true ->
        validateSwapData (Some f) (Some t) a = Validation.mk true None).
Proof.
  split_and!; intros; unfold validateSwapData, invalid.
  - reflexivity.
  - reflexivity.
  - rewrite (proj2 (String.eqb_eq _ _)) by assumption. reflexivity.
  - rewrite (proj2 (String.eqb_neq _ _)) by assumption.
    rewrite H0. reflexivity.
  - rewrite (proj2 (String.eqb_neq _ _)) by assumption.
    rewrite H0. reflexivity.
Qed.

Lemma validateSwapData_spec_witness :
  validateSwapData (Some ETH) (Some ETH) "10"
    = invalid "Cannot swap the same token"
  /\ validateSwapData (Some ETH) (Some BTC) ""
     = invalid "Please enter a valid amount"
  /\ validateSwapData (Some ETH) (Some BTC) "10" = Validation.mk true None.
Proof.
  destruct validateSwapData_spec as (_ & _ & Hsame & Hamount & Hvalid).
  split_and!.
  - apply Hsame. reflexivity.
  - apply Hamount; [discriminate | reflexivity].
  - apply Hvalid; [discriminate | reflexivity].
Defined.

(** *** The [Map] of [processTokenData] *)

Section JsMapFacts.
Context {V : Type}.
Implicit Types (m : JsMap.t V) (k : string) (v : V).

Lemma JsMap_get_elem m k v : JsMap.get m k = Some v -> (k, v) ∈ m.
Proof.
  induction m as [|[k' v'] m IH]; cbn; [discriminate|].
  rewrite elem_of_cons.
  destruct (String.eqb_spec k' k) as [->|Hne].
  - intros [= ->]. left. reflexivity.
  - intros H. right. auto.
Qed.

Lemma JsMap_get_None m k : JsMap.get m k = None <-> k ∉ JsMap.keys m.
Proof.
  unfold JsMap.keys.
  induction m as [|[k' v'] m IH]; cbn.
  - split; [intros _; apply not_elem_of_nil | reflexivity].
  - rewrite not_elem_of_cons.
    destruct (String.eqb_spec k' k) as [->|Hne].
    + split; [discriminate | intros [[] _]; reflexivity].
    + rewrite IH. split; [intros H; split; [congruence | exact H] | tauto].
Qed.

Lemma JsMap_elem_get m k v :
  NoDup (JsMap.keys m) -> (k, v) ∈ m -> JsMap.get m k = Some v.
Proof.
  unfold JsMap.keys.
  induction m as [|[k' v'] m IH]; cbn.
  - intros _ H. apply elem_of_nil in H. destruct H.
  - rewrite NoDup_cons, elem_of_cons. intros [Hk Hnd] [[= -> ->]|Hin].
    + rewrite String.eqb_refl. reflexivity.
    + destruct (String.eqb_spec k' k) as [->|Hne]; [|auto].
      destruct Hk. apply (list_elem_of_fmap_2 fst _ (k, v)). exact Hin.
Qed.

Lemma JsMap_get_set m k v k' :
  JsMap.get (JsMap.set m k v) k'
  = if String.eqb k k' then Some v else JsMap.get m k'.
Proof.
  induction m as [|[k0 v0] m IH]; cbn; [reflexivity|].
  destruct (String.eqb_spec k0 k) as [->|Hne]; cbn.
  - destruct (String.eqb_spec k k'); reflexivity.
  - rewrite IH.
    destruct (String.eqb_spec k0 k') as [->|]; [|reflexivity].
    destruct (String.eqb_spec k k'); [congruence | reflexivity].
Qed.

Lemma JsMap_set_absent m k v :
  JsMap.get m k = None -> JsMap.set m k v = m ++ [(k, v)].
Proof.
  induction m as [|[k0 v0] m IH]; cbn; [reflexivity|].
  destruct (String.eqb_spec k0 k); [discriminate|].
  intros H. rewrite IH by exact H. reflexivity.
Qed.

Lemma JsMap_keys_set_present m k v :
  is_Some (JsMap.get m k) -> JsMap.keys (JsMap.set m k v) = JsMap.keys m.
Proof.
  unfold JsMap.keys.
  induction m as [|[k0 v0] m IH]; cbn.
  - intros [x Hx]. discriminate.
  - destruct (String.eqb_spec k0 k); cbn; [reflexivity|].
    intros H. rewrite IH by exact H. reflexivity.
Qed.
End JsMapFacts.

Section ProcessTokenData.
Variable Date_parse : string -> option Z.

(** [new Date(x.date) > new Date(e.date)] holds when both dates are valid
    and the time value of the first is the greater one. *)
Lemma date_gt_times x e :
  date_gt Date_parse (PriceSample.date x) (PriceSample.date e) = true ->
  exists tx te,
    time_of Date_parse x = Some tx /\ time_of Date_parse e = Some te /\ te < tx.
Proof.
  unfold date_gt, time_of.
  destruct (Date_parse (PriceSample.date x)) as [tx|]; [|discriminate].
  destruct (Date_parse (PriceSample.date e)) as [te|]; [|discriminate].
  intros H. apply Z.ltb_lt in H. eauto.
Qed.

Lemma date_gt_not x e tx te :
  date_gt Date_parse (PriceSample.date x) (PriceSample.date e) = false ->
  time_of Date_parse x = Some tx ->
  time_of Date_parse e = Some te ->
  tx <= te.
Proof.
  unfold date_gt, time_of. intros H Hx He. rewrite Hx, He in H.
  apply Z.ltb_ge in H. exact H.
Qed.

Lemma invalid_first_elem seen item :
  invalid_first Date_parse seen item -> item ∈ seen.
Proof.
  intros (_ & l1 & l2 & -> & _). apply elem_of_app. right.
  apply list_elem_of_here.
Qed.

Lemma first_latest_elem seen item :
  first_latest Date_parse seen item -> item ∈ seen.
Proof.
  intros (l1 & l2 & t & -> & _). apply elem_of_app. right.
  apply list_elem_of_here.
Qed.

(** The first of the latest samples is a latest one. *)
Lemma first_latest_valid seen item :
  first_latest Date_parse seen item -> latest_valid Date_parse seen item.
Proof.
  intros Hf. split; [apply first_latest_elem, Hf|].
  destruct Hf as (l1 & l2 & t & -> & Ht & Hb & Ha).
  exists t. split; [exact Ht|]. intros o t' Ho Hoc Hot.
  apply elem_of_app in Ho as [Ho|Ho].
  - specialize (Hb o t' Ho Hoc Hot). lia.
  - apply elem_of_cons in Ho as [->|Ho].
    + rewrite Ht in Hot. injection Hot as <-. lia.
    + exact (Ha o t' Ho Hoc Hot).
Qed.

(** A sample of another currency, coming after the samples seen, changes
    nothing for [item]. *)
Lemma invalid_first_other seen item x :
  invalid_first Date_parse seen item ->
  invalid_first Date_parse (seen ++ [x]) item.
Proof.
  intros (Hn & l1 & l2 & -> & Hb). split; [exact Hn|].
  exists l1, (l2 ++ [x]). split; [|exact Hb].
  rewrite <- app_assoc. reflexivity.
Qed.

Lemma first_latest_other seen item x :
  PriceSample.currency x <> PriceSample.currency item ->
  first_latest Date_parse seen item ->
  first_latest Date_parse (seen ++ [x]) item.
Proof.
  intros Hne (l1 & l2 & t & -> & Ht & Hb & Ha).
  exists l1, (l2 ++ [x]), t. split_and!.
  - rewrite <- app_assoc. reflexivity.
  - exact Ht.
  - exact Hb.
  - intros o t' Ho Hoc. apply elem_of_app in Ho as [Ho|Ho]; [eauto|].
    apply list_elem_of_singleton in Ho. subst o. contradiction.
Qed.

(** The first sample of a currency, with an invalid date, after one more
    sample: it was that before, or it is the new sample. *)
Lemma invalid_first_snoc seen x item :
  invalid_first Date_parse (seen ++ [x]) item ->
  invalid_first Date_parse seen item
  \/ (item = x
      /\ time_of Date_parse x = None
      /\ forall o, o ∈ seen -> PriceSample.currency o <> PriceSample.currency x).
Proof.
  intros (Hn & l1 & l2 & Heq & Hb).
  destruct l2 as [|y l2 _] using rev_ind.
  - apply app_inj_tail in Heq as [-> ->]. right. auto.
  - change (l1 ++ item :: l2 ++ [y]) with (l1 ++ (item :: l2) ++ [y]) in Heq.
    rewrite app_assoc in Heq. apply app_inj_tail in Heq as [-> _].
    left. split; [exact Hn|]. eauto.
Qed.

Lemma latest_map_empty : latest_map Date_parse JsMap.empty [].
Proof.
  split_and!.
  - apply NoDup_nil_2.
  - intros k. reflexivity.
  - intros k item. discriminate.
  - intros item (_ & l1 & l2 & Heq & _). destruct l1; discriminate.
Qed.

(** One round of the [forEach] keeps the invariant. *)
Lemma keep_latest_step m seen x :
  latest_map Date_parse m seen ->
  latest_map Date_parse (keep_latest Date_parse m x) (seen ++ [x]).
Proof.
  intros (Hnd & Hkeys & Hget & Hinv).
  set (c := PriceSample.currency x).
  assert (Hseen : forall k,
             k ∈ PriceSample.currency <$> (seen ++ [x])
             <-> k ∈ PriceSample.currency <$> seen \/ k = c).
  { intros k. rewrite fmap_app, elem_of_app. cbn.
    rewrite list_elem_of_singleton. reflexivity. }
  assert (Hother : forall k item,
             c <> k -> JsMap.get m k = Some item ->
             PriceSample.currency item = k
             /\ (invalid_first Date_parse (seen ++ [x]) item
                 \/ first_latest Date_parse (seen ++ [x]) item)).
  { intros k item Hne Hk. destruct (Hget k item Hk) as (Hic & [Hi|Hf]).
    - split; [exact Hic|]. left. apply invalid_first_other, Hi.
    - split; [exact Hic|]. right.
      apply first_latest_other; [unfold c in Hne; congruence | exact Hf]. }
  unfold keep_latest. fold c.
  destruct (JsMap.get m c) as [e|] eqn:Hc.
  - destruct (Hget c e Hc) as (Hcur & Hkept).
    assert (He : e ∈ seen).
    { destruct Hkept; [eapply invalid_first_elem | eapply first_latest_elem];
        eassumption. }
    assert (Hin : c ∈ JsMap.keys m).
    { apply (list_elem_of_fmap_2 fst _ (c, e)), JsMap_get_elem, Hc. }
    destruct (date_gt Date_parse (PriceSample.date x) (PriceSample.date e))
      eqn:Hgt.
    + destruct (date_gt_times x e Hgt) as (tx & te & Htx & Hte & Hlt).
      destruct Hkept as [(Hn & _)|(l1 & l2 & t & Heq & Ht & Hb & Ha)];
        [congruence|].
      assert (t = te) by congruence. subst t.
      split_and!.
      * rewrite JsMap_keys_set_present by (rewrite Hc; eauto). exact Hnd.
      * intros k. rewrite JsMap_keys_set_present by (rewrite Hc; eauto).
        rewrite Hseen, Hkeys. split; [tauto|]. intros [H| ->]; [exact H|].
        apply Hkeys, Hin.
      * intros k item. rewrite JsMap_get_set.
        destruct (String.eqb_spec c k) as [<-|Hne]; [|apply Hother, Hne].
        intros [= <-]. split; [reflexivity|]. right.
        exists seen, [], tx. split_and!; [reflexivity | exact Htx | |].
        -- intros o t' Ho Hoc Hot.
           assert (Hoe : PriceSample.currency o = PriceSample.currency e)
             by (unfold c in Hcur; congruence).
           rewrite Heq in Ho. apply elem_of_app in Ho as [Ho|Ho].
           ++ specialize (Hb o t' Ho Hoe Hot). lia.
           ++ apply elem_of_cons in Ho as [->|Ho].
              ** assert (t' = te) by congruence. lia.
              ** specialize (Ha o t' Ho Hoe Hot). lia.
        -- intros o t' Ho. apply elem_of_nil in Ho. destruct Ho.
      * intros item Hi. rewrite JsMap_get_set.
        apply invalid_first_snoc in Hi as [Hi|(-> & Hn & _)]; [|congruence].
        destruct (String.eqb_spec c (PriceSample.currency item)) as [Hk|Hne];
          [|apply Hinv, Hi].
        apply Hinv in Hi as Hitem. rewrite <- Hk, Hc in Hitem.
        injection Hitem as ->. destruct Hi as (Hn & _). congruence.
    + split_and!.
      * exact Hnd.
      * intros k. rewrite Hseen, Hkeys. split; [tauto|].
        intros [H| ->]; [exact H|]. apply Hkeys, Hin.
      * intros k item Hk.
        destruct (String.eqb_spec c k) as [<-|Hne]; [|apply Hother; assumption].
        rewrite Hc in Hk. injection Hk as <-. split; [exact Hcur|].
        destruct Hkept as [Hi|(l1 & l2 & t & Heq & Ht & Hb & Ha)].
        -- left. apply invalid_first_other, Hi.
        -- right. exists l1, (l2 ++ [x]), t. split_and!.
           ++ rewrite Heq, <- app_assoc. reflexivity.
           ++ exact Ht.
           ++ exact Hb.
           ++ intros o t' Ho Hoc Hot. apply elem_of_app in Ho as [Ho|Ho]; [eauto|].
              apply list_elem_of_singleton in Ho. subst o.
              exact (date_gt_not x e t' t Hgt Hot Ht).
      * intros item Hi.
        apply invalid_first_snoc in Hi as [Hi|(-> & _ & Hfresh)];
          [apply Hinv, Hi|].
        destruct (Hfresh e He). exact Hcur.
  - assert (Hnot : c ∉ JsMap.keys m) by (apply JsMap_get_None, Hc).
    assert (Hfresh : forall o, o ∈ seen -> PriceSample.currency o <> c).
    { intros o Ho Hoc. apply Hnot, Hkeys. rewrite <- Hoc.
      apply list_elem_of_fmap_2, Ho. }
    split_and!.
    + rewrite (JsMap_set_absent m c x Hc).
      unfold JsMap.keys. rewrite fmap_app. cbn.
      apply NoDup_app. split; [exact Hnd|]. split.
      * intros k Hk Hk'. apply list_elem_of_singleton in Hk'. subst k. auto.
      * apply NoDup_singleton.
    + intros k. rewrite (JsMap_set_absent m c x Hc).
      unfold JsMap.keys. rewrite fmap_app, elem_of_app. cbn.
      rewrite list_elem_of_singleton, Hseen. fold (JsMap.keys m).
      rewrite Hkeys. reflexivity.
    + intros k item. rewrite JsMap_get_set.
      destruct (String.eqb_spec c k) as [<-|Hne]; [|apply Hother, Hne].
      intros [= <-]. split; [reflexivity|].
      destruct (time_of Date_parse x) as [tx|] eqn:Htx.
      * right. exists seen, [], tx. split_and!; [reflexivity | exact Htx | |].
        -- intros o t' Ho Hoc. destruct (Hfresh o Ho Hoc).
        -- intros o t' Ho. apply elem_of_nil in Ho. destruct Ho.
      * left. split; [exact Htx|]. exists seen, []. split; [reflexivity|].
        exact Hfresh.
    + intros item Hi. rewrite JsMap_get_set.
      apply invalid_first_snoc in Hi as [Hi|(-> & _ & _)].
      * apply Hinv in Hi.
        destruct (String.eqb_spec c (PriceSample.currency item)) as [Hk|Hne];
          [congruence | exact Hi].
      * fold c. rewrite String.eqb_refl. reflexivity.
Qed.

Lemma keep_latest_fold rest :
  forall m seen,
    latest_map Date_parse m seen ->
    latest_map Date_parse (fold_left (keep_latest Date_parse) rest m)
      (seen ++ rest).
Proof.
  induction rest as [|x rest IH]; intros m seen H; cbn.
  - rewrite app_nil_r. exact H.
  - replace (seen ++ x :: rest) with ((seen ++ [x]) ++ rest)
      by (rewrite <- app_assoc; reflexivity).
    apply IH, keep_latest_step, H.
Qed.

(** The map that [processTokenData] builds. *)
Lemma processTokenData_map (priceData : list PriceSample.t) :
  latest_map Date_parse
    (fold_left (keep_latest Date_parse) priceData JsMap.empty) priceData.
Proof. apply (keep_latest_fold priceData JsMap.empty [] latest_map_empty). Qed.

(** The currency of every value of the map is its key. *)
Lemma latest_map_currencies (m : JsMap.t PriceSample.t) seen :
  latest_map Date_parse m seen ->
  Token.currency <$> (to_token <$> JsMap.values m) = JsMap.keys m.
Proof.
  intros (Hnd & _ & Hget & _).
  unfold JsMap.values, JsMap.keys. rewrite <- !list_fmap_compose.
  apply list_fmap_ext. intros i [k item] Hi. cbn.
  apply list_elem_of_lookup_2 in Hi.
  apply (JsMap_elem_get m k item Hnd) in Hi.
  apply Hget in Hi. tauto.
Qed.

(** The sample from which a token is made is an entry of the map. *)
Lemma processTokenData_elem (priceData : list PriceSample.t) tok :
  tok ∈ processTokenData Date_parse priceData ->
  exists item,
    JsMap.get (fold_left (keep_latest Date_parse) priceData JsMap.empty)
      (PriceSample.currency item) = Some item
    /\ tok = to_token item.
Proof.
  intros Htok. unfold processTokenData in Htok.
  destruct (processTokenData_map priceData) as (Hnd & _ & Hget & _).
  apply list_elem_of_fmap in Htok as (item & -> & Hitem).
  apply list_elem_of_fmap in Hitem as ([k item'] & Heq & Hin).
  cbn in Heq. subst item'.
  apply (JsMap_elem_get _ k item Hnd) in Hin.
  destruct (Hget k item Hin) as (<- & _). eauto.
Qed.

(** C2, amended. [processTokenData] returns one token for each currency of
    its input and no other: the currencies of the tokens are pairwise
    distinct and are those of the input. Each token takes its price and
    [lastUpdated] from a sample of its currency: from one with a valid date
    whose time value is the greatest among the samples of that currency
    with a valid date, or from the first sample of the currency when the
    date of that sample is invalid. In the second case that first sample
    is the one kept, whatever the dates of the later samples are. *)
Theorem processTokenData_latest (priceData : list PriceSample.t) :
  let tokens := processTokenData Date_parse priceData in
  NoDup (Token.currency <$> tokens)
  /\ (forall c,
        c ∈ Token.currency <$> tokens
        <-> c ∈ PriceSample.currency <$> priceData)
  /\ (forall tok,
        tok ∈ tokens ->
        exists item,
          (latest_valid Date_parse priceData item
           \/ invalid_first Date_parse priceData item)
          /\ Token.currency tok = PriceSample.currency item
          /\ Token.price tok = PriceSample.price item
          /\ Token.lastUpdated tok = Some (PriceSample.date item))
  /\ (forall item,
        invalid_first Date_parse priceData item -> to_token item ∈ tokens).
Proof.
  pose proof (processTokenData_map priceData) as Hmap.
  pose proof (latest_map_currencies _ _ Hmap) as Hcur.
  destruct Hmap as (Hnd & Hkeys & Hget & Hinv).
  cbn zeta. split_and!.
  - unfold processTokenData. rewrite Hcur. exact Hnd.
  - unfold processTokenData. rewrite Hcur. exact Hkeys.
  - intros tok Htok.
    apply processTokenData_elem in Htok as (item & Hitem & ->).
    exists item. split; [|cbn; auto].
    destruct (Hget _ item Hitem) as (_ & [Hi|Hf]); [right; exact Hi|].
    left. apply first_latest_valid, Hf.
  - intros item Hi. apply Hinv in Hi. unfold processTokenData.
    apply list_elem_of_fmap_2.
    apply (list_elem_of_fmap_2 snd _ (PriceSample.currency item, item)).
    apply JsMap_get_elem, Hi.
Qed.
End ProcessTokenData.

Lemma processTokenData_latest_witness :
  let tokens := processTokenData feed_dates feed in
  NoDup (Token.currency <$> tokens)
  /\ (forall tok,
        tok ∈ tokens ->
        exists item,
          (latest_valid feed_dates feed item \/ invalid_first feed_dates feed item)
          /\ Token.currency tok = PriceSample.currency item
          /\ Token.price tok = PriceSample.price item
          /\ Token.lastUpdated tok = Some (PriceSample.date item)).
Proof.
  destruct (processTokenData_latest feed_dates feed) as (Hnd & _ & Hlatest & _).
  split; assumption.
Defined.

(** C2, the claim as stated fails when the first sample of a currency has a
    date that is no date: that sample is kept, although its date has no
    time value and a sample of the currency with a valid date follows. No
    sample with a greatest date has the price and the date of the token. *)
Lemma processTokenData_undated_first :
  processTokenData feed_dates undated_first
  = [Token.mk "ETH" (Some 1%float) (Some "not a date")
       (Some (getTokenIconUrl "ETH"))]
  /\ feed_dates "not a date" = None
  /\ ~ exists item,
        latest_valid feed_dates undated_first item
        /\ PriceSample.price item = Some 1%float
        /\ PriceSample.date item = "not a date".
Proof.
  split_and!; [reflexivity | reflexivity |].
  intros (item & (_ & t & Ht & _) & _ & Hd).
  unfold time_of in Ht. rewrite Hd in Ht. discriminate.
Qed.

(** *** [debounce] *)


Section DebounceFacts.
Context {A : Type}.
Implicit Types (d : Timers.debounced) (rt : Timers.runtime A) (a : A).






End DebounceFacts.


(** ** [services/priceService.js] *)

Section GetTokensFacts.
Variable Date_parse : string -> option Z.
Import PriceService.

(** What the [try ... catch] of [getTokens] does. *)
Lemma refresh_spec (s : PriceService.t) cached (net : Network) (now' : Z) :
  let r := refresh Date_parse s cached net now' in
  requests r.2 = S (requests s)
  /\ CACHE_DURATION r.2 = CACHE_DURATION s
  /\ (forall priceData,
        fetch_body net = Returned priceData ->
        let tokens := processTokenData Date_parse priceData in
        r.1 = Returned tokens
        /\ cache r.2 = <["tokens" := mkEntry tokens now']> (cache s))
  /\ (forall m,
        fetch_body net = Thrown m ->
        cache r.2 = cache s
        /\ r.1 = match cached with
                 | Some c => Returned (data c)
                 | None =>
                     Thrown "Failed to fetch price data. Please try again."
                 end).
Proof.
  unfold refresh, fetchPrices.
  destruct (fetch_body net) as [d|m]; cbn; split_and!; try reflexivity.
  - intros ? [= <-]. auto.
  - discriminate.
  - destruct cached; reflexivity.
  - destruct cached; reflexivity.
  - discriminate.
  - intros ? _. destruct cached; auto.
Qed.

(** C1. With the TTL of 30 seconds: an entry younger than the TTL is
    returned as it is, and nothing else happens, no request in particular.
    Otherwise one request is sent. When it succeeds, the samples are turned
    into tokens by [processTokenData], the entry is replaced by these
    tokens with the new timestamp, and they are returned. When it fails,
    the cache is left as it is, the data of the old entry is returned if
    there is one, and the error of the fetch is thrown only if there is
    none. *)
Theorem getTokens_spec (s : PriceService.t) (now : Z) (net : Network)
    (now' : Z) :
  CACHE_DURATION s = 30000 ->
  let r := getTokens Date_parse s now net now' in
  (forall c,
      cache s !! "tokens" = Some c -> now - timestamp c < 30000 ->
      r = (Returned (data c), s))
  /\ (cache s !! "tokens" = None
      \/ (exists c, cache s !! "tokens" = Some c /\ 30000 <= now - timestamp c) ->
      requests r.2 = S (requests s)
      /\ CACHE_DURATION r.2 = 30000
      /\ (forall priceData,
            fetch_body net = Returned priceData ->
            let tokens := processTokenData Date_parse priceData in
            r.1 = Returned tokens
            /\ cache r.2 = <["tokens" := mkEntry tokens now']> (cache s))
      /\ (forall m,
            fetch_body net = Thrown m ->
            cache r.2 = cache s
            /\ r.1 = match cache s !! "tokens" with
                     | Some c => Returned (data c)
                     | None =>
                         Thrown "Failed to fetch price data. Please try again."
                     end)).
Proof.
  intros Httl. cbn zeta. unfold getTokens. rewrite Httl. split.
  - intros c -> Hage.
    rewrite (proj2 (Z.ltb_lt _ _)) by exact Hage. reflexivity.
  - intros Hstale.
    pose proof (refresh_spec s (cache s !! "tokens") net now') as Href.
    cbn zeta in Href. rewrite Httl in Href.
    destruct Hstale as [Hnone | (c & Hsome & Hage)].
    + rewrite Hnone in *. exact Href.
    + rewrite Hsome in *.
      rewrite (proj2 (Z.ltb_ge _ _)) by exact Hage. exact Href.
Qed.
End GetTokensFacts.

Lemma getTokens_spec_witness :
  PriceService.getTokens feed_dates PriceService.cached_service 30999
    (PriceService.NetworkFailure "offline") 30999
  = (PriceService.Returned [ETH; BTC], PriceService.cached_service)
  /\ (PriceService.getTokens feed_dates PriceService.cached_service 31000
        (PriceService.NetworkFailure "offline") 31000).1
     = PriceService.Returned [ETH; BTC]
  /\ (PriceService.getTokens feed_dates PriceService.new 5
        (PriceService.NetworkFailure "offline") 6).1
     = PriceService.Thrown "Failed to fetch price data. Please try again."
  /\ (PriceService.getTokens feed_dates PriceService.new 5
        (PriceService.HttpResponse true "200" (Some feed)) 6).1
     = PriceService.Returned (processTokenData feed_dates feed).
Proof.
  split_and!.
  - destruct (getTokens_spec feed_dates PriceService.cached_service 30999
                (PriceService.NetworkFailure "offline") 30999 eq_refl)
      as (Hfresh & _).
    apply (Hfresh (PriceService.mkEntry [ETH; BTC] 1000));
      [reflexivity | cbn; lia].
  - destruct (getTokens_spec feed_dates PriceService.cached_service 31000
                (PriceService.NetworkFailure "offline") 31000 eq_refl)
      as (_ & Hstale).
    destruct Hstale as (_ & _ & _ & Hfail).
    + right. exists (PriceService.mkEntry [ETH; BTC] 1000).
      split; [reflexivity | cbn; lia].
    + destruct (Hfail "offline" eq_refl) as (_ & Hres). exact Hres.
  - destruct (getTokens_spec feed_dates PriceService.new 5
                (PriceService.NetworkFailure "offline") 6 eq_refl)
      as (_ & Hstale).
    destruct Hstale as (_ & _ & _ & Hfail); [left; reflexivity|].
    destruct (Hfail "offline" eq_refl) as (_ & Hres). exact Hres.
  - destruct (getTokens_spec feed_dates PriceService.new 5
                (PriceService.HttpResponse true "200" (Some feed)) 6 eq_refl)
      as (_ & Hstale).
    destruct Hstale as (_ & _ & Hok & _); [left; reflexivity|].
    destruct (Hok feed eq_refl) as (Hres & _). exact Hres.
Defined.

(** ** [hooks/useSwap.js] *)

Section UseSwapFacts.
Import UseSwap.

Lemma same_rate_refl (r : option float) : same_rate r r = true.
Proof.
  destruct r as [x|]; [|reflexivity].
  apply FloatAxioms.Leibniz.eqb_spec. reflexivity.
Qed.

(** A render after which neither [fromAmount] nor the rate has changed
    runs the second effect only, and only if [formData] was replaced. *)
Lemma render_same_deps (prev next : State) (replaced : bool) :
  fromAmount (formData next) = fromAmount (formData prev) ->
  exchangeRate (formData next) = exchangeRate (formData prev) ->
  render prev next replaced
  = if replaced then
      mkState (formData next) (isLoading next) (clear_error (error next))
        (scheduled next) (executing next) (toasts next)
    else next.
Proof.
  intros Ha Hr. unfold render.
  rewrite Ha, Hr, String.eqb_refl, same_rate_refl. reflexivity.
Qed.

(** A render leaves the tokens, [fromAmount], [isLoading], the waiting
    swaps and the notifications as the event set them; [toAmount] is kept
    or cleared. *)
Lemma render_frame (prev next : State) (replaced : bool) :
  let h := render prev next replaced in
  fromToken (formData h) = fromToken (formData next)
  /\ toToken (formData h) = toToken (formData next)
  /\ fromAmount (formData h) = fromAmount (formData next)
  /\ (toAmount (formData h) = toAmount (formData next)
      \/ toAmount (formData h) = "")
  /\ isLoading h = isLoading next
  /\ executing h = executing next
  /\ toasts h = toasts next.
Proof.
  unfold render.
  destruct (negb _ || negb _);
    [destruct (rate_and_amount _ _)|]; destruct replaced; cbn; auto 10.
Qed.

(** A render can only clear an error. *)
Lemma render_error (prev next : State) (replaced : bool) :
  error next = None -> error (render prev next replaced) = None.
Proof.
  intros He. unfold render.
  destruct (negb _ || negb _);
    [destruct (rate_and_amount _ _)|]; destruct replaced; cbn;
    rewrite ?He; reflexivity.
Qed.

(** A failed validation carries one of the four messages. *)
Lemma validation_invalid (fd : FormData) :
  Validation.isValid (validation fd) = false ->
  exists m,
    Validation.error (validation fd) = Some m
    /\ error_message (validation fd) = m
    /\ m ∈ validation_messages.
Proof.
  unfold validation, validateSwapData, validation_messages.
  destruct (fromToken fd) as [f|]; [destruct (toToken fd) as [t|]|].
  - destruct (String.eqb _ _); [|destruct (negb _)]; cbn.
    + intros _. eexists. split_and!; [reflexivity..|]. set_solver.
    + intros _. eexists. split_and!; [reflexivity..|]. set_solver.
    + discriminate.
  - intros _. eexists. split_and!; [reflexivity..|]. set_solver.
  - intros _. eexists. split_and!; [reflexivity..|]. set_solver.
Qed.

(** C5. When the validation fails, [executeSwap] only sets the error to
    the message of the validation and notifies it: the form data and
    [isLoading] are as before, so [isLoading] stays false, and no swap
    is started. *)
Theorem executeSwap_rejected (h : State) :
  Validation.isValid (validation (formData h)) = false ->
  let h' := executeSwap h in
  formData h' = formData h
  /\ isLoading h' = isLoading h
  /\ (isLoading h = false -> isLoading h' = false)
  /\ executing h' = executing h
  /\ scheduled h' = scheduled h
  /\ error h' = Validation.error (validation (formData h))
  /\ (exists m,
        error h' = Some m /\ m ∈ validation_messages
        /\ toasts h' = toasts h ++ [ErrorToast m])
  /\ (fromToken (formData h) = None ->
      error h' = Some "Please select a token to swap from").
Proof.
  intros Hv. cbn zeta. unfold executeSwap. rewrite Hv. cbn [negb].
  rewrite render_same_deps by reflexivity. cbn.
  destruct (validation_invalid (formData h) Hv) as (m & He & Hm & Hin).
  rewrite Hm, He. split_and!; try reflexivity.
  - auto.
  - exists m. auto.
  - intros Hnone. rewrite <- He. unfold validation, validateSwapData.
    rewrite Hnone. reflexivity.
Qed.

Lemma executeSwap_rejected_witness :
  error (executeSwap initial) = Some "Please select a token to swap from"
  /\ isLoading (executeSwap initial) = false
  /\ formData (executeSwap initial) = emptyForm
  /\ executing (executeSwap initial) = [].
Proof.
  destruct (executeSwap_rejected initial eq_refl)
    as (Hform & Hload & _ & Hexec & _ & _ & _ & Hmsg).
  split_and!.
  - apply Hmsg. reflexivity.
  - exact Hload.
  - exact Hform.
  - exact Hexec.
Defined.

(** When the delay of a waiting swap elapses, the session is reset. *)
Lemma swapDelayElapsed_resets (h : State) :
  executing h <> [] ->
  let h' := swapDelayElapsed h in
  formData h' = emptyForm /\ error h' = None /\ isLoading h' = false
  /\ executing h' = tail (executing h).
Proof.
  intros Hex. cbn zeta. unfold swapDelayElapsed.
  destruct (executing h) as [|fd rest]; [congruence|].
  match goal with
  | |- context [render h ?n true] =>
      pose proof (render_frame h n true) as Hf;
      pose proof (render_error h n true eq_refl) as He
  end.
  cbn zeta in Hf. cbn in Hf.
  destruct Hf as (Hft & Htt & Hfa & Hta & Hl & Hx & _).
  split_and!; try assumption.
  destruct (formData (render _ _ _)) as [ft tt fa ta]. cbn in *.
  unfold emptyForm. destruct Hta; subst; reflexivity.
Qed.

(** C6. On a valid session [executeSwap] sets [isLoading], clears the
    error, leaves the form data and starts the simulated commit. When the
    delay of the commit has elapsed the form data is the initial one, the
    error is [null] and [isLoading] is false again. *)
Theorem executeSwap_ready (h : State) :
  Validation.isValid (validation (formData h)) = true ->
  let h1 := executeSwap h in
  let h2 := swapDelayElapsed h1 in
  (isLoading h1 = true /\ error h1 = None /\ formData h1 = formData h
   /\ executing h1 = executing h ++ [formData h])
  /\ (formData h2 = emptyForm /\ error h2 = None /\ isLoading h2 = false)
  /\ (isLoading h = false ->
      isLoading <$> [h; h1; h2] = [false; true; false])
  /\ (executing h = [] -> executing h2 = []).
Proof.
  intros Hv. cbn zeta.
  assert (H1 : executeSwap h
               = mkState (formData h) true None (scheduled h)
                   (executing h ++ [formData h]) (toasts h)).
  { unfold executeSwap. rewrite Hv. cbn [negb].
    rewrite render_same_deps by reflexivity. reflexivity. }
  rewrite H1.
  match goal with
  | |- context [swapDelayElapsed ?s] =>
      destruct (swapDelayElapsed_resets s) as (Hf & He & Hl & Hx)
  end.
  { cbn. destruct (executing h); discriminate. }
  cbn in Hx. split_and!; try reflexivity; try assumption.
  - intros Hl0. cbn. rewrite Hl0, Hl. reflexivity.
  - intros Hnil. rewrite Hx, Hnil. reflexivity.
Qed.

Lemma executeSwap_ready_witness :
  let h :=
    run initial [SetFromToken (Some ETH); SetToToken (Some BTC);
                 SetFromAmount "10"] in
  isLoading (executeSwap h) = true
  /\ formData (swapDelayElapsed (executeSwap h)) = emptyForm
  /\ isLoading <$> [h; executeSwap h; swapDelayElapsed (executeSwap h)]
     = [false; true; false].
Proof.
  cbn zeta.
  destruct (executeSwap_ready
              (run initial [SetFromToken (Some ETH); SetToToken (Some BTC);
                            SetFromAmount "10"]))
    as ((Hl & _) & (Hf & _) & Htrace & _).
  - vm_compute. reflexivity.
  - split_and!; [exact Hl | exact Hf | apply Htrace; vm_compute; reflexivity].
Defined.
(** The rate is a function of the two tokens. *)
Lemma exchangeRate_tokens (fd fd' : FormData) :
  fromToken fd' = fromToken fd -> toToken fd' = toToken fd ->
  exchangeRate fd' = exchangeRate fd.
Proof. unfold exchangeRate. intros -> ->. reflexivity. Qed.

Lemma accepted_pattern (s : string) :
  accepted s = Js.amount_pattern s.
Proof.
  unfold accepted. destruct (String.eqb_spec s "") as [->|]; reflexivity.
Qed.

(** C9, as amended. When the rate of the session is [0], [setToAmount]
    with a non-empty amount that matches the pattern skips the reverse
    calculation, because [exchangeRate && amount] is falsy: [toAmount]
    becomes the amount, [fromAmount] keeps its value, nothing is divided
    by zero and no number is written. *)
Theorem setToAmount_zero_rate (h : State) (amount : string) (rate : float) :
  exchangeRate (formData h) = Some rate ->
  PrimFloat.eqb rate PrimFloat.zero = true ->
  Js.amount_pattern amount = true ->
  amount <> "" ->
  let h' := setToAmount h amount in
  formData h'
  = mkForm (fromToken (formData h)) (toToken (formData h))
      (fromAmount (formData h)) amount
  /\ number_written h (SetToAmount amount) = None
  /\ scheduled h' = scheduled h.
Proof.
  intros Hrate Hzero Hpat Hne. cbn zeta.
  assert (Hfalsy : rate_and_amount (Some rate) amount = false).
  { unfold rate_and_amount, Js.prop_truthy, Js.num_truthy.
    rewrite Hzero. reflexivity. }
  unfold setToAmount, number_written.
  rewrite accepted_pattern, Hpat, Hrate, Hfalsy.
  rewrite render_same_deps by reflexivity. cbn. auto.
Qed.

Lemma setToAmount_zero_rate_witness :
  let h := run initial [SetFromToken (Some zeroToken); SetToToken (Some BTC)] in
  formData (setToAmount h "5") = mkForm (Some zeroToken) (Some BTC) "" "5".
Proof.
  cbn zeta.
  destruct (setToAmount_zero_rate
              (run initial [SetFromToken (Some zeroToken); SetToToken (Some BTC)])
              "5" PrimFloat.zero) as (Hform & _).
  - vm_compute. reflexivity.
  - reflexivity.
  - reflexivity.
  - discriminate.
  - exact Hform.
Defined.

(** C9, the claim as stated fails: with the rate [0] of a token whose price
    is [0], [setToAmount("5")] leaves [fromAmount] as it was, here empty,
    and writes neither [Infinity] nor any other number into it. *)
Lemma setToAmount_zero_rate_counterexample :
  let h := run initial [SetFromToken (Some zeroToken); SetToToken (Some BTC)] in
  exchangeRate (formData h) = Some PrimFloat.zero
  /\ fromAmount (formData h) = ""
  /\ fromAmount (formData (setToAmount h "5")) = ""
  /\ toAmount (formData (setToAmount h "5")) = "5".
Proof. vm_compute. auto. Qed.

(** A render keeps the amounts within the pattern. *)
Lemma render_amounts (prev next : State) (replaced : bool) :
  amounts_ok (formData next) = true ->
  amounts_ok (formData (render prev next replaced)) = true.
Proof.
  pose proof (render_frame prev next replaced) as Hf. cbn zeta in Hf.
  destruct Hf as (_ & _ & Hfa & Hta & _).
  unfold amounts_ok. rewrite Hfa.
  destruct Hta as [-> | ->]; [auto|].
  rewrite !andb_true_iff. intros [H _]. auto.
Qed.

Lemma step_amounts (h : State) (e : Event) :
  amounts_ok (formData h) = true ->
  (forall s, number_written h e = Some s -> Js.amount_pattern s = true) ->
  amounts_ok (formData (step h e)) = true.
Proof.
  intros Hok Hnum. pose proof Hok as Hok'.
  unfold amounts_ok in Hok'. apply andb_true_iff in Hok' as [Hfrom Hto].
  destruct e as [tok|tok|amount|amount| | | | |]; cbn [step].
  - apply render_amounts. exact Hok.
  - apply render_amounts. exact Hok.
  - unfold setFromAmount. rewrite accepted_pattern.
    destruct (Js.amount_pattern amount) eqn:Hp; [|exact Hok].
    apply render_amounts. unfold amounts_ok. cbn. rewrite Hp, Hto. reflexivity.
  - unfold setToAmount. cbn [number_written] in Hnum.
    rewrite accepted_pattern in *.
    destruct (Js.amount_pattern amount) eqn:Hp; [|exact Hok].
    apply render_amounts. unfold amounts_ok. cbn.
    destruct (exchangeRate (formData h)) as [rate|]; cbn.
    + cbn [andb] in Hnum.
      destruct (rate_and_amount (Some rate) amount); cbn.
      * rewrite (Hnum _ eq_refl), Hp. reflexivity.
      * rewrite Hfrom, Hp. reflexivity.
    + rewrite Hfrom, Hp. reflexivity.
  - apply render_amounts. unfold amounts_ok. cbn. rewrite Hfrom, Hto. reflexivity.
  - apply render_amounts. reflexivity.
  - unfold executeSwap.
    destruct (negb _); apply render_amounts; exact Hok.
  - unfold debounceElapsed. cbn [number_written] in Hnum.
    destruct (scheduled h) as [[amount rate]|]; [|exact Hok].
    apply render_amounts. unfold amounts_ok, calculateToAmount.
    destruct rate as [r|]; cbn.
    + destruct (rate_and_amount (Some r) amount); cbn.
      * rewrite Hfrom, (Hnum _ eq_refl). reflexivity.
      * rewrite Hfrom. reflexivity.
    + rewrite Hfrom. reflexivity.
  - unfold swapDelayElapsed.
    destruct (executing h); [exact Hok|].
    apply render_amounts. reflexivity.
Qed.

Lemma run_amounts (events : list Event) :
  forall h,
    amounts_ok (formData h) = true ->
    plain_numbers h events ->
    amounts_ok (formData (run h events)) = true.
Proof.
  induction events as [|e events IH]; intros h Hok Hplain; [exact Hok|].
  destruct Hplain as [Hnum Hrest].
  apply (IH (step h e)); [apply step_amounts; assumption | exact Hrest].
Qed.

(** C8, as amended. [setFromAmount] and [setToAmount] leave the session
    as it is when the argument does not match the pattern. Every event
    other than [setToAmount] and the firing of the debounce timer keeps
    both amounts within the pattern. These two write the text of a number,
    and keep the amounts within the pattern when that text matches it. So
    the amounts match the pattern in every state reached from the initial
    one by events that write only such numbers. *)
Theorem amounts_pattern_amended :
  (forall h s,
      Js.amount_pattern s = false ->
      setFromAmount h s = h /\ setToAmount h s = h)
  /\ (forall h e,
        writes_number e = false ->
        amounts_ok (formData h) = true ->
        amounts_ok (formData (step h e)) = true)
  /\ (forall h e,
        amounts_ok (formData h) = true ->
        (forall s, number_written h e = Some s -> Js.amount_pattern s = true) ->
        amounts_ok (formData (step h e)) = true)
  /\ (forall events,
        plain_numbers initial events ->
        amounts_ok (formData (run initial events)) = true).
Proof.
  split_and!.
  - intros h s Hs. unfold setFromAmount, setToAmount.
    rewrite accepted_pattern, Hs. auto.
  - intros h e He Hok. apply step_amounts; [exact Hok|].
    destruct e; try discriminate; cbn; discriminate.
  - apply step_amounts.
  - intros events. apply run_amounts. reflexivity.
Qed.

Lemma amounts_pattern_amended_witness :
  setFromAmount initial "abc" = initial
  /\ amounts_ok
       (formData
          (run initial [SetFromToken (Some ETH); SetToToken (Some BTC);
                        SetFromAmount "10"; DebounceElapsed])) = true.
Proof.
  destruct amounts_pattern_amended as (Hrej & _ & _ & Hrun).
  split.
  - apply (Hrej initial "abc"). reflexivity.
  - apply Hrun. cbn [plain_numbers].
    split_and!; try exact I; intros s Hs; vm_compute in Hs;
      try discriminate; injection Hs as <-; reflexivity.
Defined.

(** C8, the claim as stated fails: a small amount makes the debounced
    recomputation write a number in exponent notation into [toAmount]. *)
Lemma amounts_pattern_counterexample :
  let h :=
    run initial [SetFromToken (Some ETH); SetToToken (Some BTC);
                 SetFromAmount "0.000001"; DebounceElapsed] in
  toAmount (formData h) = "6.666666666666667e-8"
  /\ Js.amount_pattern (toAmount (formData h)) = false
  /\ amounts_ok (formData h) = false.
Proof. vm_compute. auto. Qed.
End UseSwapFacts.

(* ===================================================================== *)
(** * Part III: further properties of the code *)
(* ===================================================================== *)

(** ** Problem 1 on negative numbers *)

(** X1. Below zero the three implementations part. For an integer [n < 0]
    with [n * (n + 1) < 2^53]: the loop of [sum_to_n_b] is not entered and
    the result is [0]; [sum_to_n_c] returns its argument; and the formula of
    [sum_to_n_a] gives the sum of the integers [1..-n-1], except that for
    [n = -1] it gives the negative zero. *)
Theorem sum_to_n_negative (n : Z) (fuel stack : nat) :
  n < 0 -> n * (n + 1) < 2 ^ 53 -> (0 < fuel)%nat -> (0 < stack)%nat ->
  sum_to_n_b fuel (Js.of_int n) = Some 0%float
  /\ sum_to_n_c stack (Js.of_int n) = Some (Js.of_int n)
  /\ sum_to_n_a (Js.of_int n)
     = (if n =? -1 then (-0)%float
        else Js.of_int (sum_1_to (Z.to_nat (- n - 1)))).
Proof.
  intros Hn Hr Hfuel Hstack.
  assert (Habs : Z.abs n < 2 ^ 53).
  { destruct (Z.eq_dec n (-1)) as [->|Hne]; [reflexivity | nia]. }
  split_and!.
  - destruct fuel as [|fuel]; [lia|]. unfold sum_to_n_b. cbn [sum_loop].
    change 1%float with (Js.of_int 1). rewrite of_int_leb by lia.
    rewrite (proj2 (Z.leb_gt 1 n)) by lia. reflexivity.
  - destruct stack as [|stack]; [lia|]. cbn [sum_to_n_c].
    change 1%float with (Js.of_int 1). rewrite of_int_leb by lia.
    rewrite (proj2 (Z.leb_le n 1)) by lia. reflexivity.
  - destruct (Z.eqb_spec n (-1)) as [->|Hne]; [reflexivity|].
    pose proof (sum_1_to_closed (Z.to_nat (- n - 1))) as Hc.
    rewrite Z2Nat.id in Hc by lia.
    unfold sum_to_n_a. change 1%float with (Js.of_int 1).
    rewrite of_int_add by lia. rewrite of_int_mul by (try lia; nia).
    replace (n * (n + 1)) with (2 * sum_1_to (Z.to_nat (- n - 1))) by lia.
    apply of_int_half. lia.
Qed.

Lemma sum_to_n_negative_witness :
  sum_to_n_b 1 (Js.of_int (-3)) = Some 0%float
  /\ sum_to_n_c 1 (Js.of_int (-3)) = Some (Js.of_int (-3))
  /\ sum_to_n_a (Js.of_int (-3)) = Js.of_int 3.
Proof. apply (sum_to_n_negative (-3) 1 1); [lia | reflexivity | lia | lia]. Defined.

(** ** [utils/currency.js], continued *)

Lemma append_inj_l (p a b : string) :
  String.append p a = String.append p b -> a = b.
Proof.
  induction p as [|c p IH]; cbn; [auto|]. intros [= H]. auto.
Qed.

Lemma append_length (a b : string) :
  String.length (String.append a b) = (String.length a + String.length b)%nat.
Proof.
  induction a as [|c a IH]; [reflexivity|].
  change (String.append (String c a) b) with (String c (String.append a b)).
  cbn [String.length]. rewrite IH. reflexivity.
Qed.

Lemma append_inj_r (a b : string) (c : ascii) (r : string) :
  String.append a (String c r) = String.append b (String c r) -> a = b.
Proof.
  intros H.
  assert (Hlen : String.length a = String.length b).
  { apply (f_equal String.length) in H.
    rewrite !append_length in H. lia. }
  revert b H Hlen. induction a as [|x a IH]; intros [|y b] H Hlen;
    cbn in *; try discriminate; [reflexivity|].
  injection H as -> H. f_equal. apply IH; [exact H | lia].
Qed.

(** X2. [getTokenIconUrl] is injective: two currencies never share an icon
    URL. *)
Theorem getTokenIconUrl_inj (a b : string) :
  getTokenIconUrl a = getTokenIconUrl b -> a = b.
Proof.
  unfold getTokenIconUrl.
  destruct a as [|x a], b as [|y b]; cbn [Js.str_truthy negb];
    try reflexivity; try discriminate.
  intros H. apply append_inj_l in H.
  apply (append_inj_r _ _ "."%char "svg") in H. exact H.
Qed.

Lemma getTokenIconUrl_inj_witness : "ETH" = "ETH".
Proof. apply getTokenIconUrl_inj. reflexivity. Defined.

(** The result of rounding keeps the sign it is given, so it is not below
    zero when that sign is positive. *)
Lemma binary_round_aux_nonneg (m e : Z) (l : location) :
  SFltb (binary_round_aux prec emax false m e l) (S754_zero false) = false.
Proof.
  unfold binary_round_aux.
  destruct (shr_fexp prec emax m e l) as [mrs e'].
  destruct (shr_fexp prec emax _ e' loc_Exact) as [mrs' e''].
  destruct (shr_m mrs'); [reflexivity | | reflexivity].
  destruct (_ <=? _); reflexivity.
Qed.

(** X3. [calculateOutputAmount] never returns a number below zero, whatever
    the amount and the rate are. *)
Theorem calculateOutputAmount_nonneg (inputAmount : amount_arg) (rate : float) :
  PrimFloat.ltb (calculateOutputAmount inputAmount rate) PrimFloat.zero = false.
Proof.
  unfold calculateOutputAmount.
  set (amount := amount_number inputAmount).
  destruct (PrimFloat.is_nan amount) eqn:Hnan; [reflexivity|].
  destruct (PrimFloat.leb amount PrimFloat.zero) eqn:Ha; [reflexivity|].
  destruct (PrimFloat.leb rate PrimFloat.zero) eqn:Hr; [reflexivity|].
  cbn [orb].
  unfold PrimFloat.is_nan in Hnan.
  rewrite FloatAxioms.eqb_spec in Hnan.
  rewrite FloatAxioms.leb_spec in Ha, Hr.
  rewrite FloatAxioms.ltb_spec, FloatAxioms.mul_spec.
  change (Prim2SF PrimFloat.zero) with (S754_zero false) in *.
  unfold SF64mul.
  destruct (Prim2SF amount) as [sa| [|] | |[|] ma ea];
    try discriminate;
    destruct (Prim2SF rate) as [sr| [|] | |[|] mr er];
    try discriminate; try reflexivity.
  apply binary_round_aux_nonneg.
Qed.

(** ** The pattern of the amounts *)

Lemma skip_digits_all (s : string) :
  Js.skip_digits s = EmptyString
  <-> digits_and_dots s = true /\ dots s = O.
Proof.
  induction s as [|c s IH]; cbn; [tauto|].
  destruct (Js.is_digit c) eqn:Hd; cbn.
  - assert (Hdot : Ascii.eqb c "." = false).
    { apply Ascii.eqb_neq. intros ->. discriminate. }
    rewrite Hdot. exact IH.
  - destruct (Ascii.eqb c "."); cbn; split; try discriminate;
      intros [H1 H2]; discriminate.
Qed.

(** X4. An amount matches [/^\d*\.?\d*$/] exactly when it consists of
    digits and at most one dot: no sign, no exponent, no space. *)
Theorem amount_pattern_chars (s : string) :
  Js.amount_pattern s = true
  <-> digits_and_dots s = true /\ (dots s <= 1)%nat.
Proof.
  induction s as [|c s IH]; [cbn; split; auto|].
  unfold Js.amount_pattern in *. cbn.
  destruct (Js.is_digit c) eqn:Hd; cbn.
  - assert (Hdot : Ascii.eqb c "." = false).
    { apply Ascii.eqb_neq. intros ->. discriminate. }
    rewrite Hdot. exact IH.
  - destruct (Ascii.eqb c ".") eqn:Hdot; cbn.
    + pose proof (skip_digits_all s) as Hall.
      destruct (Js.skip_digits s).
      * split; [intros _|reflexivity].
        destruct (proj1 Hall eq_refl) as [H1 H2]. rewrite H2. auto.
      * split; [discriminate|]. intros [H1 H2].
        assert (H0 : dots s = O) by lia.
        discriminate (proj2 Hall (conj H1 H0)).
    + split; [discriminate | intros [H _]; discriminate].
Qed.

(** ** [isValidAmount] *)

(** Without a digit other than [0], the digits read are worth [0]. *)
Lemma take_digits_zero (s : string) :
  forall len,
    has_nonzero_digit s = false ->
    exists len' r,
      Js.take_digits s 0 len = (0, len', r) /\ has_nonzero_digit r = false.
Proof.
  induction s as [|c s IH]; intros len Hnz; cbn.
  - eauto.
  - cbn in Hnz. apply orb_false_iff in Hnz as [Hc Hs].
    destruct (Js.is_digit c) eqn:Hd.
    + cbn in Hc. apply negb_false_iff, Z.eqb_eq in Hc. rewrite Hc. cbn.
      apply IH. exact Hs.
    + exists len, (String c s). cbn. rewrite Hd. cbn. auto.
Qed.

Lemma trim_start_no_digit (s : string) :
  has_nonzero_digit s = false -> has_nonzero_digit (Js.trim_start s) = false.
Proof.
  induction s as [|c s IH]; [auto|]. intros Hnz. cbn.
  destruct (Js.is_white c); [|exact Hnz].
  cbn in Hnz. apply orb_false_iff in Hnz as [_ Hs]. auto.
Qed.

(** Without a digit other than [0], a literal is worth zero, or it is
    [Infinity], or there is none. *)
Lemma unsigned_literal_no_digit (s : string) :
  has_nonzero_digit s = false ->
  Js.unsigned_literal s = PrimFloat.zero
  \/ Js.unsigned_literal s = PrimFloat.infinity
  \/ Js.unsigned_literal s = PrimFloat.nan.
Proof.
  intros Hnz. unfold Js.unsigned_literal.
  destruct (Js.strip_prefix "Infinity" s); [auto|].
  destruct (take_digits_zero s 0 Hnz) as (ilen & r1 & -> & Hr1).
  assert (Hm : exists flen r2,
             match r1 with
             | String c r =>
                 if Ascii.eqb c "." then
                   let '(m, tlen, r2) := Js.take_digits r 0 ilen in
                   (m, tlen - ilen, r2)
                 else (0, 0, r1)
             | EmptyString => (0, 0, r1)
             end = (0, flen, r2)).
  { destruct r1 as [|c r]; [eauto|].
    destruct (Ascii.eqb c "."); [|eauto].
    cbn in Hr1. apply orb_false_iff in Hr1 as [_ Hr].
    destruct (take_digits_zero r ilen Hr) as (tlen & r2 & -> & _). eauto. }
  destruct Hm as (flen & r2 & ->).
  destruct (ilen + flen =? 0); [auto|].
  left. unfold Js.scale10.
  destruct (0 <=? flen - Js.exponent_part r2); reflexivity.
Qed.

(** Without a digit other than [0], [parseFloat] gives a zero, an infinity
    or [NaN]. *)
Lemma parseFloat_no_digit (s : string) :
  has_nonzero_digit s = false ->
  In (Js.parseFloat s)
    [PrimFloat.zero; PrimFloat.neg_zero; PrimFloat.infinity;
     PrimFloat.neg_infinity; PrimFloat.nan].
Proof.
  intros Hnz. apply trim_start_no_digit in Hnz. unfold Js.parseFloat.
  destruct (Js.trim_start s) as [|c r]; [cbn; auto 6|].
  assert (Hr : has_nonzero_digit r = false).
  { cbn in Hnz. apply orb_false_iff in Hnz as [_ Hr]. exact Hr. }
  destruct (Ascii.eqb c "-").
  - destruct (unsigned_literal_no_digit r Hr) as [-> | [-> | ->]];
      cbn; auto 6.
  - destruct (Ascii.eqb c "+").
    + destruct (unsigned_literal_no_digit r Hr) as [-> | [-> | ->]];
        cbn; auto 6.
    + destruct (unsigned_literal_no_digit (String c r) Hnz) as [-> | [-> | ->]];
        cbn; auto 6.
Qed.

(** X5. An amount that [isValidAmount] accepts has a digit other than [0]:
    amounts such as ["0"], ["0.00"] or ["."] are rejected, whatever else
    the string holds. *)
Theorem isValidAmount_nonzero_digit (amount : string) :
  isValidAmount amount = true -> has_nonzero_digit amount = true.
Proof.
  intros Hvalid.
  destruct (has_nonzero_digit amount) eqn:Hnz; [reflexivity|].
  exfalso. revert Hvalid. unfold isValidAmount.
  destruct (negb _ || _); [discriminate|].
  destruct (parseFloat_no_digit amount Hnz)
    as [<- | [<- | [<- | [<- | [<- | []]]]]]; discriminate.
Qed.

Lemma isValidAmount_nonzero_digit_witness :
  has_nonzero_digit "0.001" = true.
Proof. apply isValidAmount_nonzero_digit. reflexivity. Defined.

(** ** [processTokenData], continued *)

Section ProcessTokenDataMore.
Variable Date_parse : string -> option Z.

Lemma keep_latest_keys (m : JsMap.t PriceSample.t) (x : PriceSample.t) :
  JsMap.keys (keep_latest Date_parse m x)
  = if bool_decide (PriceSample.currency x ∈ JsMap.keys m) then JsMap.keys m
    else JsMap.keys m ++ [PriceSample.currency x].
Proof.
  unfold keep_latest.
  destruct (JsMap.get m (PriceSample.currency x)) as [e|] eqn:Hget.
  - assert (Hin : PriceSample.currency x ∈ JsMap.keys m).
    { apply (list_elem_of_fmap_2 fst _ (_, e)), JsMap_get_elem, Hget. }
    rewrite bool_decide_eq_true_2 by exact Hin.
    destruct (date_gt _ _ _); [|reflexivity].
    apply JsMap_keys_set_present. rewrite Hget. eauto.
  - rewrite bool_decide_eq_false_2 by (apply JsMap_get_None, Hget).
    rewrite (JsMap_set_absent _ _ _ Hget).
    unfold JsMap.keys. rewrite fmap_app. reflexivity.
Qed.

Lemma first_occurrences_ext (l : list string) :
  forall seen seen',
    (forall k, k ∈ seen <-> k ∈ seen') ->
    first_occurrences seen l = first_occurrences seen' l.
Proof.
  induction l as [|c l IH]; intros seen seen' Hs; [reflexivity|]. cbn.
  rewrite (bool_decide_ext _ _ (Hs c)).
  destruct (bool_decide (c ∈ seen')); [apply IH, Hs|].
  f_equal. apply IH. intros k. rewrite !elem_of_cons, Hs. reflexivity.
Qed.

Lemma keep_latest_fold_keys (l : list PriceSample.t) :
  forall m,
    JsMap.keys (fold_left (keep_latest Date_parse) l m)
    = JsMap.keys m
      ++ first_occurrences (JsMap.keys m) (PriceSample.currency <$> l).
Proof.
  induction l as [|x l IH]; intros m; cbn [fold_left fmap list_fmap];
    [rewrite app_nil_r; reflexivity|].
  rewrite IH, keep_latest_keys. cbn [first_occurrences].
  destruct (bool_decide (PriceSample.currency x ∈ JsMap.keys m));
    [reflexivity|].
  rewrite <- app_assoc. cbn. do 2 f_equal.
  apply first_occurrences_ext. intros k.
  rewrite elem_of_app, list_elem_of_singleton, elem_of_cons. tauto.
Qed.

(** X6. The tokens of [processTokenData] come in the order in which their
    currencies first occur in the input. *)
Theorem processTokenData_order (priceData : list PriceSample.t) :
  Token.currency <$> processTokenData Date_parse priceData
  = first_occurrences [] (PriceSample.currency <$> priceData).
Proof.
  unfold processTokenData.
  rewrite (latest_map_currencies _ _ _ (processTokenData_map _ priceData)).
  rewrite keep_latest_fold_keys. reflexivity.
Qed.

Lemma keep_latest_fold_distinct (l : list PriceSample.t) :
  forall m,
    NoDup (PriceSample.currency <$> l) ->
    (forall x, x ∈ l -> PriceSample.currency x ∉ JsMap.keys m) ->
    fold_left (keep_latest Date_parse) l m
    = m ++ ((fun x => (PriceSample.currency x, x)) <$> l).
Proof.
  induction l as [|x l IH]; intros m Hnd Hfresh; cbn;
    [rewrite app_nil_r; reflexivity|].
  rewrite fmap_cons in Hnd. apply NoDup_cons in Hnd as [Hx Hnd].
  assert (Hget : JsMap.get m (PriceSample.currency x) = None).
  { apply JsMap_get_None, Hfresh, list_elem_of_here. }
  unfold keep_latest at 2. rewrite Hget, (JsMap_set_absent _ _ _ Hget).
  rewrite IH; [rewrite <- app_assoc; reflexivity | exact Hnd |].
  intros y Hy. unfold JsMap.keys. rewrite fmap_app, elem_of_app. cbn.
  rewrite list_elem_of_singleton. intros [Hin | Heq].
  - apply (Hfresh y); [apply list_elem_of_further, Hy | exact Hin].
  - apply Hx. rewrite <- Heq. apply list_elem_of_fmap_2, Hy.
Qed.

(** X7. When the currencies of the input are pairwise distinct, nothing is
    dropped: [processTokenData] turns each sample into its token, in the
    order of the input. *)
Theorem processTokenData_distinct (priceData : list PriceSample.t) :
  NoDup (PriceSample.currency <$> priceData) ->
  processTokenData Date_parse priceData = to_token <$> priceData.
Proof.
  intros Hnd. unfold processTokenData.
  rewrite keep_latest_fold_distinct;
    [| exact Hnd | intros x _; apply not_elem_of_nil].
  cbn. unfold JsMap.values. rewrite <- !list_fmap_compose. reflexivity.
Qed.

(** X8. Each token is made from a sample of the input that is the first of
    the latest samples of its currency: its date is valid, the samples of
    that currency before it that have a valid date have a smaller time
    value, and those after it have no greater one, so that of several
    samples with the same latest date the first is kept. The one exception
    is a currency whose first sample has an invalid date: its token is made
    from that first sample. *)
Theorem processTokenData_first_latest (priceData : list PriceSample.t) :
  forall tok,
    tok ∈ processTokenData Date_parse priceData ->
    exists item,
      (first_latest Date_parse priceData item
       \/ invalid_first Date_parse priceData item)
      /\ tok = to_token item.
Proof.
  intros tok Htok.
  apply processTokenData_elem in Htok as (item & Hitem & ->).
  exists item. split; [|reflexivity].
  destruct (processTokenData_map Date_parse priceData) as (_ & _ & Hget & _).
  destruct (Hget _ item Hitem) as (_ & [Hi|Hf]); auto.
Qed.
End ProcessTokenDataMore.

(** ** [debounce], continued *)

Section DebounceTrace.
Context {A : Type}.
Implicit Types (d : Timers.debounced) (rt : Timers.runtime A) (a : A).







End DebounceTrace.

(** ** [services/priceService.js], continued *)

Section PriceServiceMore.
Variable Date_parse : string -> option Z.
Import PriceService.

(** X11. [fetchPrices] sends one request and leaves the cache alone. It
    returns the samples exactly when the response is [ok] and its body is
    JSON; a failed request, a status that is not [ok] and a body that
    cannot be read are all thrown as the same error. *)
Theorem fetchPrices_outcome (s : PriceService.t) (net : Network) :
  (fetchPrices s net).2
  = PriceService.mk (cache s) (CACHE_DURATION s) (S (requests s))
  /\ (forall d,
        (fetchPrices s net).1 = Returned d
        <-> exists status, net = HttpResponse true status (Some d))
  /\ (forall m,
        (fetchPrices s net).1 = Thrown m ->
        m = "Failed to fetch price data. Please try again.").
Proof.
  unfold fetchPrices, fetch_body.
  destruct net as [msg | [|] status [d'|]]; cbn; split_and!; try reflexivity.
  - intros d. split; [discriminate | intros [st Hst]; discriminate].
  - intros m [= <-]. reflexivity.
  - intros d. split.
    + intros [= ->]. exists status. reflexivity.
    + intros [st Hst]. injection Hst as _ ->. reflexivity.
  - discriminate.
  - intros d. split; [discriminate | intros [st Hst]; discriminate].
  - intros m [= <-]. reflexivity.
  - intros d. split; [discriminate | intros [st Hst]; discriminate].
  - intros m [= <-]. reflexivity.
  - intros d. split; [discriminate | intros [st Hst]; discriminate].
  - intros m [= <-]. reflexivity.
Qed.

(** With a valid cache [getTokens] returns the cached data and does nothing
    else. *)
Lemma getTokens_valid (s : PriceService.t) now net now' c :
  cache s !! "tokens" = Some c ->
  isCacheValid s now = true ->
  getTokens Date_parse s now net now' = (Returned (data c), s).
Proof.
  unfold isCacheValid, getTokens. intros -> ->. reflexivity.
Qed.

(** Without a valid cache [getTokens] is its [try ... catch]. *)
Lemma getTokens_invalid (s : PriceService.t) now net now' :
  isCacheValid s now = false ->
  getTokens Date_parse s now net now'
  = refresh Date_parse s (cache s !! "tokens") net now'.
Proof.
  unfold isCacheValid, getTokens.
  destruct (cache s !! "tokens") as [c|]; [|reflexivity].
  intros ->. reflexivity.
Qed.

(** X12. [isCacheValid] tells whether [getTokens] goes to the network:
    when it is true, the cached data is returned and the service is left as
    it is; when it is false, exactly one request is sent. *)
Theorem isCacheValid_getTokens (s : PriceService.t) now net now' :
  let r := getTokens Date_parse s now net now' in
  (isCacheValid s now = true ->
   r.2 = s /\ exists c, cache s !! "tokens" = Some c /\ r.1 = Returned (data c))
  /\ (isCacheValid s now = false -> requests r.2 = S (requests s)).
Proof.
  cbn zeta. split.
  - intros Hv. pose proof Hv as Hv'. unfold isCacheValid in Hv'.
    destruct (cache s !! "tokens") as [c|] eqn:Hc; [|discriminate].
    rewrite (getTokens_valid s now net now' c Hc Hv). eauto.
  - intros Hv. rewrite (getTokens_invalid s now net now' Hv).
    apply refresh_spec.
Qed.

(** X13. What a successful refresh stores is served again: until the TTL
    has passed since the time of the update, [getTokens] returns the same
    tokens, whatever the network would answer, and leaves the service as it
    is. *)
Theorem getTokens_again (s : PriceService.t) now net now' priceData :
  isCacheValid s now = false ->
  fetch_body net = Returned priceData ->
  let s' := (getTokens Date_parse s now net now').2 in
  forall t net2 t2,
    t - now' < CACHE_DURATION s ->
    isCacheValid s' t = true
    /\ getTokens Date_parse s' t net2 t2
       = (Returned (processTokenData Date_parse priceData), s').
Proof.
  intros Hinv Hok. cbn zeta. intros t net2 t2 Ht.
  rewrite (getTokens_invalid s now net now' Hinv).
  destruct (refresh_spec Date_parse s (cache s !! "tokens") net now')
    as (_ & Hdur & Hret & _).
  destruct (Hret priceData Hok) as (_ & Hcache). cbn zeta in Hcache.
  set (s' := (refresh Date_parse s (cache s !! "tokens") net now').2) in *.
  assert (Hentry : cache s' !! "tokens"
                   = Some (mkEntry (processTokenData Date_parse priceData) now')).
  { rewrite Hcache. apply lookup_insert_eq. }
  assert (Hvalid : isCacheValid s' t = true).
  { unfold isCacheValid. rewrite Hentry, Hdur. cbn.
    apply Z.ltb_lt. exact Ht. }
  split; [exact Hvalid|].
  rewrite (getTokens_valid s' t net2 t2 _ Hentry Hvalid). reflexivity.
Qed.

(** X14. [clearCache] gives up the stale data: right after it the cache is
    not valid, [getTokens] sends a request, and when that fails the error
    is thrown, whatever the cache held before. *)
Theorem clearCache_forgets (s : PriceService.t) now net now' :
  isCacheValid (clearCache s) now = false
  /\ let r := getTokens Date_parse (clearCache s) now net now' in
     requests r.2 = S (requests s)
     /\ (forall m,
           fetch_body net = Thrown m ->
           r.1 = Thrown "Failed to fetch price data. Please try again.")
     /\ (forall priceData,
           fetch_body net = Returned priceData ->
           r.1 = Returned (processTokenData Date_parse priceData)).
Proof.
  assert (Hinv : forall t, isCacheValid (clearCache s) t = false)
    by reflexivity.
  split; [apply Hinv|]. cbn zeta.
  rewrite (getTokens_invalid _ now net now' (Hinv now)).
  destruct (refresh_spec Date_parse (clearCache s)
              (cache (clearCache s) !! "tokens") net now')
    as (Hreq & _ & Hret & Hthrow).
  split_and!.
  - exact Hreq.
  - intros m Hm. destruct (Hthrow m Hm) as (_ & Hres). exact Hres.
  - intros d Hd. destruct (Hret d Hd) as (Hres & _). exact Hres.
Qed.

(** X15. A refresh that fails does not renew the entry: the stale data is
    returned, the cache is as before, and it is not valid at any later
    time, so the next call asks the network again. *)
Theorem getTokens_stays_stale (s : PriceService.t) now net now' c m :
  cache s !! "tokens" = Some c ->
  isCacheValid s now = false ->
  fetch_body net = Thrown m ->
  let r := getTokens Date_parse s now net now' in
  r.1 = Returned (data c)
  /\ cache r.2 = cache s
  /\ forall t, now <= t -> isCacheValid r.2 t = false.
Proof.
  intros Hc Hinv Hm. cbn zeta.
  rewrite (getTokens_invalid s now net now' Hinv), Hc.
  destruct (refresh_spec Date_parse s (Some c) net now')
    as (_ & Hdur & _ & Hthrow).
  destruct (Hthrow m Hm) as (Hcache & Hres).
  split_and!; [exact Hres | exact Hcache |].
  intros t Ht. unfold isCacheValid in *. rewrite Hcache, Hdur, Hc in *.
  apply Z.ltb_ge. apply Z.ltb_ge in Hinv. lia.
Qed.

(** [find] returns the first token of the currency, if there is one. *)
Lemma find_token_spec (toks : list Token.t) (c : string) :
  match find_token toks c with
  | Some tok => tok ∈ toks /\ Token.currency tok = c
  | None => c ∉ Token.currency <$> toks
  end.
Proof.
  unfold find_token.
  destruct (List.find _ toks) as [tok|] eqn:Hfind.
  - apply List.find_some in Hfind as [Hin Heq].
    split; [apply list_elem_of_In, Hin | apply String.eqb_eq, Heq].
  - intros Hin. apply list_elem_of_fmap in Hin as (tok & -> & Hin).
    apply list_elem_of_In in Hin.
    pose proof (List.find_none _ _ Hfind tok Hin) as Hne. cbn in Hne.
    rewrite String.eqb_refl in Hne. discriminate.
Qed.

(** The currencies of the tokens are those of the samples. *)
Lemma processTokenData_currencies (priceData : list PriceSample.t) (c : string) :
  c ∈ Token.currency <$> processTokenData Date_parse priceData
  <-> c ∈ PriceSample.currency <$> priceData.
Proof.
  pose proof (keep_latest_fold Date_parse priceData JsMap.empty []
                (latest_map_empty Date_parse)) as Hmap.
  unfold processTokenData.
  rewrite (latest_map_currencies Date_parse _ _ Hmap).
  destruct Hmap as (_ & Hkeys & _). apply Hkeys.
Qed.

(** X16. [getToken] leaves the service as [getTokens] does and throws what
    it throws. Otherwise it returns a token of the list that [getTokens]
    returns, with the currency asked for, or [null] when the list has no
    token of that currency. *)
Theorem getToken_spec (s : PriceService.t) now net now' (c : string) :
  let r := getTokens Date_parse s now net now' in
  let g := getToken Date_parse s now net now' c in
  g.2 = r.2
  /\ match r.1 with
     | Thrown e => g.1 = Thrown e
     | Returned toks =>
         (exists tok,
             g.1 = Returned (Some tok) /\ tok ∈ toks /\ Token.currency tok = c)
         \/ (g.1 = Returned None /\ c ∉ Token.currency <$> toks)
     end.
Proof.
  cbn zeta. unfold getToken.
  destruct (getTokens Date_parse s now net now') as [[toks|e] s']; cbn;
    [|auto].
  split; [reflexivity|].
  pose proof (find_token_spec toks c) as Hfind.
  destruct (find_token toks c) as [tok|]; [left | right]; eauto.
Qed.

(** X17. After a refresh that succeeds, [getToken] returns [null] exactly
    for the currencies that the feed does not have, and a token of the
    currency asked for otherwise. *)
Theorem getToken_refreshed (s : PriceService.t) now net now' priceData c :
  isCacheValid s now = false ->
  fetch_body net = Returned priceData ->
  let g := (getToken Date_parse s now net now' c).1 in
  (g = Returned None <-> c ∉ PriceSample.currency <$> priceData)
  /\ (forall tok, g = Returned (Some tok) -> Token.currency tok = c)
  /\ (forall e, g <> Thrown e).
Proof.
  intros Hinv Hok. cbn zeta. unfold getToken.
  rewrite (getTokens_invalid s now net now' Hinv).
  destruct (refresh_spec Date_parse s (cache s !! "tokens") net now')
    as (_ & _ & Hret & _).
  destruct (Hret priceData Hok) as (Hres & _). cbn zeta in Hres.
  destruct (refresh Date_parse s (cache s !! "tokens") net now') as [r s'].
  cbn in Hres. subst r. cbn.
  pose proof (find_token_spec (processTokenData Date_parse priceData) c) as Hfind.
  pose proof (processTokenData_currencies priceData c) as Hcur.
  destruct (find_token _ c) as [tok|]; split_and!.
  - split; [discriminate|]. intros Hnot. destruct Hnot.
    destruct Hfind as (Hin & <-). apply Hcur, list_elem_of_fmap_2, Hin.
  - intros tok' [= <-]. tauto.
  - discriminate.
  - split; [|reflexivity]. intros _ Hin. apply Hfind, Hcur, Hin.
  - discriminate.
  - discriminate.
Qed.
End PriceServiceMore.

Lemma fetchPrices_outcome_witness :
  (PriceService.fetchPrices PriceService.new
     (PriceService.HttpResponse true "200" (Some feed))).1
  = PriceService.Returned feed.
Proof.
  destruct (fetchPrices_outcome PriceService.new
              (PriceService.HttpResponse true "200" (Some feed)))
    as (_ & Hret & _).
  apply Hret. exists "200". reflexivity.
Defined.

Lemma isCacheValid_getTokens_witness :
  (PriceService.getTokens feed_dates PriceService.cached_service 30999
     (PriceService.NetworkFailure "offline") 30999).2
  = PriceService.cached_service
  /\ PriceService.requests
       (PriceService.getTokens feed_dates PriceService.cached_service 31000
          (PriceService.NetworkFailure "offline") 31000).2 = 1%nat.
Proof.
  split.
  - destruct (isCacheValid_getTokens feed_dates PriceService.cached_service
                30999 (PriceService.NetworkFailure "offline") 30999)
      as (Hvalid & _).
    destruct (Hvalid eq_refl) as (Hs & _). exact Hs.
  - destruct (isCacheValid_getTokens feed_dates PriceService.cached_service
                31000 (PriceService.NetworkFailure "offline") 31000)
      as (_ & Hinvalid).
    apply Hinvalid. reflexivity.
Defined.

Lemma getTokens_again_witness :
  let s' :=
    (PriceService.getTokens feed_dates PriceService.new 5
       (PriceService.HttpResponse true "200" (Some feed)) 6).2 in
  PriceService.getTokens feed_dates s' 30005
    (PriceService.NetworkFailure "offline") 30005
  = (PriceService.Returned (processTokenData feed_dates feed), s').
Proof.
  cbn zeta.
  destruct (getTokens_again feed_dates PriceService.new 5
              (PriceService.HttpResponse true "200" (Some feed)) 6 feed
              eq_refl eq_refl 30005 (PriceService.NetworkFailure "offline")
              30005) as (_ & H).
  - cbn. lia.
  - exact H.
Defined.

Lemma getTokens_stays_stale_witness :
  (PriceService.getTokens feed_dates PriceService.cached_service 31000
     (PriceService.NetworkFailure "offline") 31000).1
  = PriceService.Returned [ETH; BTC]
  /\ PriceService.isCacheValid
       (PriceService.getTokens feed_dates PriceService.cached_service 31000
          (PriceService.NetworkFailure "offline") 31000).2 31001 = false.
Proof.
  destruct (getTokens_stays_stale feed_dates PriceService.cached_service 31000
              (PriceService.NetworkFailure "offline") 31000
              (PriceService.mkEntry [ETH; BTC] 1000) "offline"
              eq_refl eq_refl eq_refl) as (Hres & _ & Hstale).
  split; [exact Hres | apply Hstale; lia].
Defined.

Lemma clearCache_forgets_witness :
  (PriceService.getTokens feed_dates
     (PriceService.clearCache PriceService.cached_service) 2000
     (PriceService.NetworkFailure "offline") 2000).1
  = PriceService.Thrown "Failed to fetch price data. Please try again.".
Proof.
  destruct (clearCache_forgets feed_dates PriceService.cached_service 2000
              (PriceService.NetworkFailure "offline") 2000)
    as (_ & _ & Hthrow & _).
  apply (Hthrow "offline"). reflexivity.
Defined.

Lemma getToken_refreshed_witness :
  (PriceService.getToken feed_dates PriceService.new 5
     (PriceService.HttpResponse true "200" (Some feed)) 6 "BTC").1
  = PriceService.Returned None.
Proof.
  destruct (getToken_refreshed feed_dates PriceService.new 5
              (PriceService.HttpResponse true "200" (Some feed)) 6 feed "BTC"
              eq_refl eq_refl) as (Hnone & _).
  apply Hnone. unfold feed. cbn [fmap list_fmap PriceSample.currency].
  intros Hin.
  repeat (apply elem_of_cons in Hin as [Hin|Hin]; [discriminate|]).
  apply elem_of_nil in Hin. exact Hin.
Defined.

(** ** [hooks/useTokens.js] *)

Section UseTokensFacts.
Variable Date_parse : string -> option Z.
Import PriceService.

(** X18. After [fetchTokens] the hook is not loading. It has an error only
    when the cache has no entry and the fetch failed; the tokens it had are
    then kept. With an entry in the cache, however old, there is no
    error. *)
Theorem fetchTokens_outcome (h : UseTokens.State) (s : PriceService.t)
    now net now' :
  let h' := (UseTokens.fetchTokens Date_parse h s now net now').1 in
  UseTokens.isLoading h' = false
  /\ (is_Some (cache s !! "tokens") -> UseTokens.error h' = None)
  /\ (forall m,
        UseTokens.error h' = Some m ->
        m = "Failed to fetch price data. Please try again."
        /\ UseTokens.tokens h' = UseTokens.tokens h
        /\ cache s !! "tokens" = None
        /\ exists e, fetch_body net = Thrown e)
  /\ (UseTokens.error h' = None ->
      (getTokens Date_parse s now net now').1
      = Returned (UseTokens.tokens h')).
Proof.
  cbn zeta. unfold UseTokens.fetchTokens, getTokens, refresh, fetchPrices.
  destruct (cache s !! "tokens") as [c|];
    [destruct (_ <? _)|]; destruct (fetch_body net) as [d|e]; cbn;
    split_and!; try reflexivity; try discriminate;
    try (intros [x Hx]; discriminate).
  intros m [= <-]. split_and!; eauto.
Qed.

End UseTokensFacts.

Lemma fetchTokens_outcome_witness :
  UseTokens.error
    (UseTokens.fetchTokens feed_dates UseTokens.initial
       PriceService.cached_service 31000
       (PriceService.NetworkFailure "offline") 31000).1 = None.
Proof.
  destruct (fetchTokens_outcome feed_dates UseTokens.initial
              PriceService.cached_service 31000
              (PriceService.NetworkFailure "offline") 31000)
    as (_ & Hcached & _).
  apply Hcached. eexists. reflexivity.
Defined.

(** ** [hooks/useSwap.js], continued *)

Section UseSwapMore.
Import UseSwap.

(** A render after [setFormData] runs the effect that clears the error. *)
Lemma render_replaced_error (prev next : State) :
  error (render prev next true) = clear_error (error next).
Proof.
  unfold render.
  destruct (negb _ || negb _); [destruct (rate_and_amount _ _)|]; reflexivity.
Qed.

Lemma clear_error_message (e : option string) :
  e <> Some "" -> clear_error e = None.
Proof.
  destruct e as [[|c m]|]; cbn; [congruence | reflexivity | reflexivity].
Qed.

Lemma error_message_nonempty (v : Validation.t) : error_message v <> "".
Proof.
  unfold error_message.
  destruct (Validation.error v) as [[|c m]|]; cbn; discriminate.
Qed.

(** No event sets the error to the empty string. *)
Lemma step_error_nonempty (h : State) (e : Event) :
  error h <> Some "" -> error (step h e) <> Some "".
Proof.
  intros Hok.
  assert (Hclear : forall prev next,
             error next <> Some "" -> error (render prev next true) <> Some "").
  { intros prev next Hn. rewrite render_replaced_error.
    rewrite clear_error_message by exact Hn. discriminate. }
  destruct e as [tok|tok|amount|amount| | | | |]; cbn [step].
  - apply Hclear. exact Hok.
  - apply Hclear. exact Hok.
  - unfold setFromAmount. destruct (accepted amount); [|exact Hok].
    apply Hclear. exact Hok.
  - unfold setToAmount. destruct (accepted amount); [|exact Hok].
    apply Hclear. exact Hok.
  - apply Hclear. exact Hok.
  - apply Hclear. discriminate.
  - unfold executeSwap.
    destruct (negb _); rewrite render_same_deps by reflexivity; cbn.
    + intros [= Heq]. apply (error_message_nonempty _ Heq).
    + discriminate.
  - unfold debounceElapsed. destruct (scheduled h) as [[a r]|]; [|exact Hok].
    apply Hclear. exact Hok.
  - unfold swapDelayElapsed. destruct (executing h); [exact Hok|].
    apply Hclear. discriminate.
Qed.

Lemma run_error_nonempty (events : list Event) :
  forall h, error h <> Some "" -> error (run h events) <> Some "".
Proof.
  induction events as [|e events IH]; intros h Hok; [exact Hok|].
  apply (IH (step h e)), step_error_nonempty, Hok.
Qed.

(** X19. In every state reached from the initial one, an event that
    replaces the form data leaves no error behind, and an event that does
    not, other than [executeSwap], changes nothing: a rejected amount, a
    timer that is not scheduled, a delay that nothing waits for. *)
Theorem error_is_transient (events : list Event) (e : Event) :
  let h := run initial events in
  (replaces_form h e = true -> error (step h e) = None)
  /\ (replaces_form h e = false -> e <> ExecuteSwap -> step h e = h).
Proof.
  cbn zeta.
  pose proof (run_error_nonempty events initial ltac:(discriminate)) as Hok.
  set (h := run initial events) in *.
  assert (Hclear : forall next,
             error next = error h \/ error next = None ->
             error (render h next true) = None).
  { intros next Hn. rewrite render_replaced_error.
    apply clear_error_message. destruct Hn as [-> | ->]; [exact Hok|].
    discriminate. }
  split.
  - destruct e as [tok|tok|amount|amount| | | | |]; cbn [step replaces_form].
    + intros _. apply Hclear. auto.
    + intros _. apply Hclear. auto.
    + intros Ha. unfold setFromAmount. rewrite Ha. apply Hclear. auto.
    + intros Ha. unfold setToAmount. rewrite Ha. apply Hclear. auto.
    + intros _. apply Hclear. auto.
    + intros _. apply Hclear. auto.
    + discriminate.
    + unfold debounceElapsed. destruct (scheduled h) as [[a r]|];
        [|discriminate].
      intros _. apply Hclear. auto.
    + unfold swapDelayElapsed. destruct (executing h); [discriminate|].
      intros _. apply Hclear. auto.
  - destruct e as [tok|tok|amount|amount| | | | |];
      cbn [step replaces_form]; try discriminate.
    + intros Ha _. unfold setFromAmount. rewrite Ha. reflexivity.
    + intros Ha _. unfold setToAmount. rewrite Ha. reflexivity.
    + congruence.
    + unfold debounceElapsed. destruct (scheduled h); [discriminate|].
      reflexivity.
    + unfold swapDelayElapsed. destruct (executing h); [|discriminate].
      reflexivity.
Qed.

Lemma error_is_transient_witness :
  error (step (run initial [ExecuteSwap]) (SetFromToken (Some ETH))) = None
  /\ step (run initial [ExecuteSwap]) (SetFromAmount "abc")
     = run initial [ExecuteSwap].
Proof.
  split.
  - apply (error_is_transient [ExecuteSwap] (SetFromToken (Some ETH))).
    reflexivity.
  - apply (error_is_transient [ExecuteSwap] (SetFromAmount "abc"));
      [reflexivity | discriminate].
Defined.

(** What [resetForm] does, after its render. *)
Lemma resetForm_state (h : State) :
  resetForm h
  = mkState emptyForm (isLoading h) None (scheduled h) (executing h)
      (toasts h).
Proof.
  unfold resetForm, render. cbn.
  destruct (negb _ || negb _); reflexivity.
Qed.

(** X20. [resetForm] empties the form and the error and nothing else: the
    scheduled recomputation, the waiting swaps and [isLoading] stay. Calling
    it twice is the same as calling it once. *)
Theorem resetForm_idempotent (h : State) :
  formData (resetForm h) = emptyForm
  /\ error (resetForm h) = None
  /\ scheduled (resetForm h) = scheduled h
  /\ executing (resetForm h) = executing h
  /\ isLoading (resetForm h) = isLoading h
  /\ resetForm (resetForm h) = resetForm h.
Proof.
  rewrite !resetForm_state. cbn. auto 10.
Qed.

Lemma rate_and_empty (rate : option float) : rate_and_amount rate "" = false.
Proof. unfold rate_and_amount. apply andb_false_r. Qed.

(** The debounce timer fires on a state whose rate and [fromAmount] it
    does not change. *)
Lemma debounceElapsed_form (h : State) amount rate :
  scheduled h = Some (amount, rate) ->
  formData (debounceElapsed h) = calculateToAmount (formData h) amount rate
  /\ scheduled (debounceElapsed h) = None.
Proof.
  intros Hs. unfold debounceElapsed. rewrite Hs.
  rewrite render_same_deps.
  - cbn. auto.
  - cbn. unfold calculateToAmount.
    destruct rate; [destruct (rate_and_amount _ _)|]; reflexivity.
  - cbn. apply exchangeRate_tokens; unfold calculateToAmount;
      destruct rate; try destruct (rate_and_amount _ _); reflexivity.
Qed.

(** X21. Emptying [fromAmount], by [resetForm] or by [setFromAmount("")],
    clears [toAmount] at once but does not cancel the recomputation that
    is scheduled: when its timer fires, [toAmount] is set from the amount
    and the rate of the earlier call, beside an empty [fromAmount]. *)
Theorem clearing_keeps_timer (h : State) (amount : string) (r : float) :
  scheduled h = Some (amount, Some r) ->
  rate_and_amount (Some r) amount = true ->
  let text :=
    Js.number_to_string (calculateOutputAmount (AmountStr amount) r) in
  formData (debounceElapsed (resetForm h)) = mkForm None None "" text
  /\ (fromAmount (formData h) <> "" ->
      toAmount (formData (setFromAmount h "")) = ""
      /\ formData (debounceElapsed (setFromAmount h ""))
         = mkForm (fromToken (formData h)) (toToken (formData h)) "" text).
Proof.
  intros Hs Hra. cbn zeta. split.
  - destruct (debounceElapsed_form (resetForm h) amount (Some r)) as (Hf & _).
    { rewrite resetForm_state. exact Hs. }
    rewrite Hf, resetForm_state. cbn. unfold calculateToAmount.
    rewrite Hra. reflexivity.
  - intros Hne.
    assert (H1 : formData (setFromAmount h "")
                 = mkForm (fromToken (formData h)) (toToken (formData h)) "" ""
                 /\ scheduled (setFromAmount h "") = scheduled h).
    { unfold setFromAmount, render. cbn.
      rewrite (proj2 (String.eqb_neq _ _)) by exact Hne. cbn.
      rewrite rate_and_empty. cbn. auto. }
    destruct H1 as (Hform & Hsched). split; [rewrite Hform; reflexivity|].
    destruct (debounceElapsed_form (setFromAmount h "") amount (Some r))
      as (Hf & _).
    { rewrite Hsched. exact Hs. }
    rewrite Hf, Hform. unfold calculateToAmount. rewrite Hra. reflexivity.
Qed.

Lemma clearing_keeps_timer_witness :
  let h :=
    run initial [SetFromToken (Some ETH); SetToToken (Some BTC);
                 SetFromAmount "10"] in
  formData (debounceElapsed (resetForm h))
  = mkForm None None "" "0.6666666666666666".
Proof.
  cbn zeta.
  destruct (clearing_keeps_timer
              (run initial [SetFromToken (Some ETH); SetToToken (Some BTC);
                            SetFromAmount "10"])
              "10" (PrimFloat.div 2000 30000)) as (Hreset & _).
  - vm_compute. reflexivity.
  - vm_compute. reflexivity.
  - rewrite Hreset. vm_compute. reflexivity.
Defined.
(** X22. [setFromAmount] with a new, non-empty amount that matches the
    pattern, on a session whose rate is truthy: [fromAmount] is set at once,
    [toAmount] stays as it is and the recomputation is scheduled with this
    amount and this rate; when the timer fires, [toAmount] becomes the text
    of [calculateOutputAmount(amount, rate)]. *)
Theorem setFromAmount_recomputes (h : State) (amount : string) (rate : float) :
  Js.amount_pattern amount = true ->
  amount <> "" ->
  amount <> fromAmount (formData h) ->
  exchangeRate (formData h) = Some rate ->
  Js.num_truthy rate = true ->
  let h1 := setFromAmount h amount in
  let h2 := debounceElapsed h1 in
  formData h1
  = mkForm (fromToken (formData h)) (toToken (formData h)) amount
      (toAmount (formData h))
  /\ scheduled h1 = Some (amount, Some rate)
  /\ formData h2
     = mkForm (fromToken (formData h)) (toToken (formData h)) amount
         (Js.number_to_string (calculateOutputAmount (AmountStr amount) rate))
  /\ scheduled h2 = None.
Proof.
  intros Hpat Hne Hnew Hrate Htruthy. cbn zeta.
  assert (Hra : rate_and_amount (Some rate) amount = true).
  { unfold rate_and_amount. cbn. rewrite Htruthy.
    destruct amount; [congruence | reflexivity]. }
  assert (H1 : formData (setFromAmount h amount)
               = mkForm (fromToken (formData h)) (toToken (formData h)) amount
                   (toAmount (formData h))
               /\ scheduled (setFromAmount h amount) = Some (amount, Some rate)).
  { unfold setFromAmount. rewrite accepted_pattern, Hpat. unfold render.
    cbn [formData with_form fromAmount].
    rewrite (proj2 (String.eqb_neq _ _)) by congruence. cbn [negb orb].
    rewrite (exchangeRate_tokens (formData h)
               (mkForm (fromToken (formData h)) (toToken (formData h)) amount
                  (toAmount (formData h)))) by reflexivity.
    rewrite Hrate, Hra. cbn. auto. }
  destruct H1 as (Hform & Hsched).
  destruct (debounceElapsed_form (setFromAmount h amount) amount (Some rate)
              Hsched) as (Hf & Hs).
  split_and!; [exact Hform | exact Hsched | | exact Hs].
  rewrite Hf, Hform. unfold calculateToAmount. rewrite Hra. reflexivity.
Qed.

Lemma setFromAmount_recomputes_witness :
  let h := run initial [SetFromToken (Some ETH); SetToToken (Some BTC)] in
  formData (debounceElapsed (setFromAmount h "10"))
  = mkForm (Some ETH) (Some BTC) "10" "0.6666666666666666".
Proof.
  cbn zeta.
  destruct (setFromAmount_recomputes
              (run initial [SetFromToken (Some ETH); SetToToken (Some BTC)])
              "10" (PrimFloat.div 2000 30000))
    as (_ & _ & Hform & _).
  - reflexivity.
  - discriminate.
  - vm_compute. discriminate.
  - vm_compute. reflexivity.
  - reflexivity.
  - rewrite Hform. vm_compute. reflexivity.
Defined.

(** X23. [swapTokens] exchanges the two tokens and puts the former
    [toAmount] into [fromAmount]; swapping twice gives the tokens back. The
    former [fromAmount] goes into [toAmount], but the render that follows
    clears it when the new [fromAmount] is empty: an amount typed into
    [fromAmount] whose [toAmount] is still empty is lost by the swap. *)
Theorem swapTokens_spec (h : State) :
  let h' := swapTokens h in
  fromToken (formData h') = toToken (formData h)
  /\ toToken (formData h') = fromToken (formData h)
  /\ fromAmount (formData h') = toAmount (formData h)
  /\ (toAmount (formData h') = fromAmount (formData h)
      \/ toAmount (formData h') = "")
  /\ (toAmount (formData h) = "" -> fromAmount (formData h) <> "" ->
      fromAmount (formData h') = "" /\ toAmount (formData h') = "")
  /\ fromToken (formData (swapTokens h')) = fromToken (formData h)
  /\ toToken (formData (swapTokens h')) = toToken (formData h).
Proof.
  cbn zeta.
  assert (Hframe : forall s,
             fromToken (formData (swapTokens s)) = toToken (formData s)
             /\ toToken (formData (swapTokens s)) = fromToken (formData s)
             /\ fromAmount (formData (swapTokens s)) = toAmount (formData s)
             /\ (toAmount (formData (swapTokens s)) = fromAmount (formData s)
                 \/ toAmount (formData (swapTokens s)) = "")).
  { intros s. unfold swapTokens.
    match goal with
    | |- context [render s ?n true] =>
        pose proof (render_frame s n true) as Hf
    end.
    cbn zeta in Hf. cbn in Hf. tauto. }
  destruct (Hframe h) as (Hft & Htt & Hfa & Hta).
  destruct (Hframe (swapTokens h)) as (Hft2 & Htt2 & _).
  split_and!; try assumption; [| congruence | congruence].
  intros Hto Hfrom. split; [congruence|].
  unfold swapTokens, render. cbn. rewrite Hto.
  rewrite (proj2 (String.eqb_neq _ _)) by exact Hfrom. cbn.
  rewrite rate_and_empty. destruct (isLoading h); reflexivity.
Qed.

Lemma swapTokens_spec_witness :
  let h :=
    run initial [SetFromToken (Some ETH); SetToToken (Some BTC);
                 SetFromAmount "10"] in
  fromAmount (formData (swapTokens h)) = ""
  /\ toAmount (formData (swapTokens h)) = "".
Proof.
  cbn zeta.
  destruct (swapTokens_spec
              (run initial [SetFromToken (Some ETH); SetToToken (Some BTC);
                            SetFromAmount "10"]))
    as (_ & _ & _ & _ & Hlost & _).
  apply Hlost; [reflexivity | vm_compute; discriminate].
Defined.
Lemma append_nonempty_l (a b : string) :
  a <> "" -> String.append a b <> "".
Proof. destruct a; [congruence | discriminate]. Qed.

Lemma append_nonempty_r (a b : string) :
  b <> "" -> String.append a b <> "".
Proof. destruct a; [auto | discriminate]. Qed.

Lemma digits_nonempty (z : Z) : Js.digits z <> "".
Proof.
  unfold Js.digits. destruct (N.to_uint (Z.to_N z)); discriminate.
Qed.

(** The text of a number is never empty. *)
Lemma number_to_string_nonempty (x : float) : Js.number_to_string x <> "".
Proof.
  assert (Hpos : forall y, Js.positive_to_string y <> "").
  { intros y. unfold Js.positive_to_string.
    destruct (PrimFloat.eqb y PrimFloat.infinity); [discriminate|].
    destruct (Js.ratio_of_number y) as [[a b]|]; [|discriminate].
    destruct (Js.shortest _ _ _ _ _ _) as [[[s k] n]|]; [|discriminate].
    unfold Js.layout.
    destruct (_ && _); [apply append_nonempty_l, digits_nonempty|].
    destruct (_ && _);
      [apply append_nonempty_r, append_nonempty_l; discriminate|].
    destruct (_ && _); [apply append_nonempty_l; discriminate|].
    apply append_nonempty_r, append_nonempty_l. discriminate. }
  unfold Js.number_to_string.
  destruct (PrimFloat.is_nan x); [discriminate|].
  destruct (PrimFloat.eqb x PrimFloat.zero); [discriminate|].
  destruct (PrimFloat.ltb x PrimFloat.zero); [|apply Hpos].
  apply append_nonempty_l. discriminate.
Qed.

(** A render in which [fromAmount] has changed, with a truthy rate and a
    non-empty amount, schedules the recomputation and leaves the form. *)
Lemma render_schedules (prev next : State) (replaced : bool) :
  fromAmount (formData prev) <> fromAmount (formData next) ->
  rate_and_amount (exchangeRate (formData next)) (fromAmount (formData next))
  = true ->
  formData (render prev next replaced) = formData next
  /\ scheduled (render prev next replaced)
     = Some (fromAmount (formData next), exchangeRate (formData next)).
Proof.
  intros Hdiff Hra. unfold render.
  rewrite (proj2 (String.eqb_neq _ _)) by exact Hdiff. cbn [negb orb].
  rewrite Hra. destruct replaced; cbn; auto.
Qed.

(** X24. [setToAmount] with a non-empty amount that matches the pattern, on
    a session whose rate is truthy, sets [toAmount] to the amount and
    [fromAmount] to the amount computed back. When that differs from the
    former [fromAmount], a recomputation is scheduled with it, and when the
    timer fires the [toAmount] that was entered is replaced by the text of
    [calculateOutputAmount] of the amount computed back. *)
Theorem setToAmount_recomputes (h : State) (amount : string) (rate : float) :
  Js.amount_pattern amount = true ->
  amount <> "" ->
  exchangeRate (formData h) = Some rate ->
  Js.num_truthy rate = true ->
  let back := reverseAmount rate amount in
  let h1 := setToAmount h amount in
  formData h1
  = mkForm (fromToken (formData h)) (toToken (formData h)) back amount
  /\ (back <> fromAmount (formData h) ->
      scheduled h1 = Some (back, Some rate)
      /\ formData (debounceElapsed h1)
         = mkForm (fromToken (formData h)) (toToken (formData h)) back
             (Js.number_to_string
                (calculateOutputAmount (AmountStr back) rate)))
  /\ (back = fromAmount (formData h) -> scheduled h1 = scheduled h).
Proof.
  intros Hpat Hne Hrate Htruthy. cbn zeta.
  set (back := reverseAmount rate amount).
  assert (Hback : back <> "") by apply number_to_string_nonempty.
  assert (Hra : forall a, a <> "" -> rate_and_amount (Some rate) a = true).
  { intros a Ha. unfold rate_and_amount. cbn. rewrite Htruthy.
    destruct a; [congruence | reflexivity]. }
  assert (Hset : setToAmount h amount
                 = render h
                     (with_form h
                        (mkForm (fromToken (formData h)) (toToken (formData h))
                           back amount)) true).
  { unfold setToAmount. rewrite accepted_pattern, Hpat, Hrate.
    rewrite (Hra amount Hne). reflexivity. }
  rewrite Hset.
  match goal with
  | |- context [render h ?n true] =>
      assert (Hnext : exchangeRate (formData n) = Some rate)
        by (rewrite <- Hrate; apply exchangeRate_tokens; reflexivity);
      set (next := n) in *
  end.
  destruct (String.eqb_spec (fromAmount (formData h)) back) as [Heq|Hdiff].
  - rewrite (render_same_deps h next true);
      [| unfold next; cbn; congruence | congruence].
    cbn. split_and!; [reflexivity | congruence | reflexivity].
  - destruct (render_schedules h next true) as (Hform & Hsched).
    { exact Hdiff. }
    { rewrite Hnext. apply (Hra back Hback). }
    rewrite Hnext in Hsched. change (fromAmount (formData next)) with back in Hsched.
    split_and!; [exact Hform | | congruence].
    intros _. split; [exact Hsched|].
    destruct (debounceElapsed_form (render h next true) back (Some rate) Hsched)
      as (Hf & _).
    rewrite Hf, Hform. cbn. unfold calculateToAmount.
    rewrite (Hra back Hback). reflexivity.
Qed.

Lemma setToAmount_recomputes_witness :
  let h := run initial [SetFromToken (Some ETH); SetToToken (Some BTC)] in
  formData (setToAmount h "0.7")
  = mkForm (Some ETH) (Some BTC)
      (reverseAmount (PrimFloat.div 2000 30000) "0.7") "0.7".
Proof.
  cbn zeta.
  destruct (setToAmount_recomputes
              (run initial [SetFromToken (Some ETH); SetToToken (Some BTC)])
              "0.7" (PrimFloat.div 2000 30000)) as (Hform & _).
  - reflexivity.
  - discriminate.
  - vm_compute. reflexivity.
  - reflexivity.
  - exact Hform.
Defined.
End UseSwapMore.

(** ** Instances of the properties above *)

Lemma amount_pattern_chars_witness : Js.amount_pattern "12.5" = true.
Proof.
  apply (proj2 (amount_pattern_chars "12.5")).
  split; [reflexivity | cbn; lia].
Defined.

Lemma processTokenData_distinct_witness :
  processTokenData feed_dates
    [ PriceSample.mk "ETH" (Some 1645.5%float) "2023-08-29T07:10:40.000Z";
      PriceSample.mk "USDC" (Some 1%float) "2023-08-29T07:10:40.000Z" ]
  = [ to_token
        (PriceSample.mk "ETH" (Some 1645.5%float) "2023-08-29T07:10:40.000Z");
      to_token
        (PriceSample.mk "USDC" (Some 1%float) "2023-08-29T07:10:40.000Z") ].
Proof.
  apply (processTokenData_distinct feed_dates). cbn.
  apply NoDup_cons. split; [|apply NoDup_singleton].
  intros Hin. apply list_elem_of_singleton in Hin. discriminate.
Defined.

Lemma processTokenData_first_latest_witness :
  let first := PriceSample.mk "ETH" (Some 1%float) "2023-08-29T07:10:40.000Z" in
  let second := PriceSample.mk "ETH" (Some 2%float) "2023-08-29T07:10:40.000Z" in
  to_token first ∈ processTokenData feed_dates [first; second]
  /\ forall tok,
       tok ∈ processTokenData feed_dates [first; second] ->
       exists item,
         (first_latest feed_dates [first; second] item
          \/ invalid_first feed_dates [first; second] item)
         /\ tok = to_token item.
Proof.
  cbn zeta. split.
  - vm_compute. apply list_elem_of_here.
  - apply (processTokenData_first_latest feed_dates).
Defined.


